(** * IMDB reviews dataset: tokenizer, corpus, collator and sampler

    A shallow embedding of [src/dataset.py]: the vocabulary loader
    ([get_imdb_vocab]), the tokenizer ([tokenize_plane_text]), the corpus
    ([ImdbReviewsDataset]), the batch collator ([collate_docs]) and the
    length-local random sampler ([SimilarRandSampler]).

    Python integers are [Z], list positions are [nat], dictionaries are
    [gmap], exceptions are values of [exn] carried by the [result] monad.
    A tensor of [int64] takes the integers of that range only: the
    conversion of a list to a tensor refuses the others.  The random source
    is an explicit stream of draws threaded through the sampler. *)

From Stdlib Require Import ZArith Lia Ascii String.
From stdpp Require Import gmap strings list sorting.

(** ** Exceptions and the result monad *)

(** The exceptions the modelled code can raise, one constructor per raising
    site. *)
Inductive exn : Type :=
| ValueError_max_empty   (* max() of an empty sequence *)
| ValueError_sample      (* random.sample: k negative or larger than population *)
| IndexError_choice      (* random.choice of an empty sequence *)
| IndexError_list        (* list index out of range *)
| IndexError_tensor      (* tensor index out of range *)
| RuntimeError_tensor    (* negative dimension, an integer outside int64, or shape
                            mismatch in a slice assignment *)
| AssertionError         (* a failed assert *)
| OSError_open.          (* open() of a path that is not a readable file *)

Inductive result (A : Type) : Type :=
| Ok (a : A)
| Raise (e : exn).
Arguments Ok {A} a.
Arguments Raise {A} e.

#[global] Instance result_ret : MRet result := λ A a, Ok a.
#[global] Instance result_bind : MBind result := λ A B f m,
  match m with
  | Ok a => f a
  | Raise e => Raise e
  end.

Definition is_Raise {A} (r : result A) : Prop := ∃ e, r = Raise e.

(** ** Python built-ins used by the code *)

(** [max(l)] on a list of integers. *)
Definition py_max (l : list Z) : result Z :=
  match l with
  | [] => Raise ValueError_max_empty
  | x :: t => Ok (foldl Z.max x t)
  end.

(** Normalisation of one slice bound against a sequence of length [len]:
    a negative bound counts from the end, and the outcome is clamped to
    [0..len]. *)
Definition adjust_index (len : nat) (i : Z) : nat :=
  if (i <? 0)%Z then Z.to_nat (i + Z.of_nat len)
  else Nat.min (Z.to_nat i) len.

(** [l[lo:hi]] *)
Definition py_slice {A} (l : list A) (lo hi : Z) : list A :=
  let a := adjust_index (length l) lo in
  let b := adjust_index (length l) hi in
  take (b - a) (drop a l).

(** [l[:hi]] *)
Definition py_prefix {A} (l : list A) (hi : Z) : list A :=
  take (adjust_index (length l) hi) l.

(** [l[i]]: negative indices count from the end. *)
Definition py_index {A} (l : list A) (i : Z) : result A :=
  let n := Z.of_nat (length l) in
  let j := if (i <? 0)%Z then (i + n)%Z else i in
  if ((j <? 0) || (n <=? j))%Z then Raise IndexError_list
  else match l !! Z.to_nat j with
       | Some x => Ok x
       | None => Raise IndexError_list
       end.

(** [range(a, b)] *)
Definition py_range (a b : Z) : list Z := seqZ a (b - a).

(** [dict(kvs)]: pairs are inserted in order, a later pair overrides an
    earlier one with the same key. *)
Definition dict {V} (kvs : list (string * V)) : gmap string V :=
  foldl (λ m kv, <[kv.1 := kv.2]> m) ∅ kvs.

(** ** File system *)

(** A path is its list of components; [p </> c] is Python's [p / c]. *)
Definition path : Type := list string.
Definition path_join (p : path) (c : string) : path := p ++ [c].
Infix "</>" := path_join (at level 40, left associativity).

(** [p.parent.name] of a path with at least two components. *)
Definition parent_name (p : path) : string :=
  match reverse p with
  | _ :: d :: _ => d
  | _ => EmptyString
  end.

(** The part of the file system the code reads: the directories, each with
    its entries in enumeration order, and the text files, each with the
    text that [read()] returns.  A file whose bytes do not decode, at which
    [read()] raises, is not one of these. *)
Record FS : Type := {
  fs_dirs : gmap path (list string);
  fs_files : gmap path string
}.

(** [open(p).read()] *)
Definition open_read (fs : FS) (p : path) : result string :=
  match fs_files fs !! p with
  | Some content => Ok content
  | None => Raise OSError_open
  end.

Fixpoint contains_char (c : ascii) (s : string) : bool :=
  match s with
  | EmptyString => false
  | String a s' => if Ascii.eqb a c then true else contains_char c s'
  end.

Fixpoint str_drop (n : nat) (s : string) : string :=
  match n, s with
  | 0, _ => s
  | S n', String _ s' => str_drop n' s'
  | S _, EmptyString => EmptyString
  end.

Fixpoint str_take (n : nat) (s : string) : string :=
  match n, s with
  | 0, _ => EmptyString
  | S n', String a s' => String a (str_take n' s')
  | S _, EmptyString => EmptyString
  end.

(** Whether a file name matches the pattern [*_*.txt]: it ends in [.txt] and
    has an underscore before that suffix. *)
Definition matches_pattern (name : string) : bool :=
  let n := String.length name in
  (4 <=? n) && String.eqb (str_drop (n - 4) name) ".txt"
  && contains_char "_"%char (str_take (n - 4) name).

(** [list(dir.glob('*_*.txt'))]: the matching entries of the directory, as
    paths; a directory that does not exist yields nothing. *)
Definition glob_txt (fs : FS) (dir : path) : list path :=
  match fs_dirs fs !! dir with
  | Some names => (λ name, dir </> name) <$> filter (λ name, matches_pattern name = true) names
  | None => []
  end.

(** [for x in l: s = body(s, x)], stopping at the first exception. *)
Fixpoint for_in {A S} (body : S → A → result S) (l : list A) (s : S) : result S :=
  match l with
  | [] => Ok s
  | x :: l' => s' ← body s x; for_in body l' s'
  end.

(** ** Vocabulary, tokenizer and corpus *)

(** [TText]: [text[i_sentence][j_word]] *)
Definition TText : Type := list (list Z).

(** [TItem]: the dictionary with the keys [txt], [label], [txt_len] and
    [snt_len]. *)
Record TItem : Type := {
  txt : TText;
  label : Z;
  txt_len : Z;
  snt_len : Z
}.

(** [SNT_CLIP], [TXT_CLIP] *)
Definition SNT_CLIP : Z := 100.
Definition TXT_CLIP : Z := 40.

Module ImdbReviewsDataset.

(** An [ImdbReviewsDataset] object: its configuration and its data fields. *)
Record t : Type := {
  _path_to_data : path;
  _vocab : gmap string Z;
  _snt_clip : Z;
  _txt_clip : Z;
  _paths : list path;
  _texts : list TText;
  _labels : list Z;
  _txt_lens : list Z;
  _snt_lens : list Z
}.

Section Corpus.
(** The library functions the code calls on strings. *)
Variable splitlines : string → list string.   (* str.splitlines *)
Variable str_lower : string → string.         (* str.lower *)
Variable html_sub : string → string.          (* re.sub(re.compile('<.*?>'), ' ', _) *)
Variable tokenize_s : string → list string.   (* PunktSentenceTokenizer().tokenize *)
Variable tokenize_w : string → list string.   (* WordPunctTokenizer().tokenize *)

(** [ImdbReviewsDataset.get_imdb_vocab] *)
Definition get_imdb_vocab (fs : FS) (imdb_root : path) : result (gmap string Z) :=
  content ← open_read fs (imdb_root </> "imdb.vocab");
  let words := splitlines content in
  (* note, that we keep 0 for padding token *)
  let ids := py_range 1 (Z.of_nat (length words) + 1) in
  let vocab := dict (zip words ids) in
  Ok vocab.

(** [[self.vocab[w] for w in tokenize_w(s) if w in self._vocab.keys()]]:
    the ids of the words that the vocabulary has, in order. *)
Definition sentence_ids (self : t) (s : string) : list Z :=
  omap (λ w, _vocab self !! w) (tokenize_w s).

(** The nested comprehension of [tokenize_plane_text], with both clips. *)
Definition clipped_text (self : t) (text_plane : string) : TText :=
  py_prefix
    ((λ s, py_prefix (sentence_ids self s) (_snt_clip self)) <$> tokenize_s text_plane)
    (_txt_clip self).

(** [ImdbReviewsDataset.tokenize_plane_text] *)
Definition tokenize_plane_text (self : t) (text_plane : string)
  : result (TText * Z * Z) :=
  let text_plane := str_lower text_plane in
  let text_plane := html_sub text_plane in
  let text := clipped_text self text_plane in
  snt_len_max ← py_max ((λ snt, Z.of_nat (length snt)) <$> text);
  let txt_len := Z.of_nat (length text) in
  Ok (text, snt_len_max, txt_len).

(** The body of the loop of [_load_data] for one file. *)
Definition load_file (fs : FS) (self : t) (file_path : path)
  : result t :=
  content ← open_read fs file_path;
  '(text, snt_len_max, txt_len) ← tokenize_plane_text self content;
  let label := if String.eqb (parent_name file_path) "pos" then 1%Z else 0%Z in
  Ok {| _path_to_data := _path_to_data self;
        _vocab := _vocab self;
        _snt_clip := _snt_clip self;
        _txt_clip := _txt_clip self;
        _paths := _paths self ++ [file_path];
        _texts := _texts self ++ [text];
        _labels := _labels self ++ [label];
        _txt_lens := _txt_lens self ++ [txt_len];
        _snt_lens := _snt_lens self ++ [snt_len_max] |}.

(** The files [_load_data] reads, in load order. *)
Definition data_files (fs : FS) (path_to_data : path) : list path :=
  glob_txt fs (path_to_data </> "neg") ++ glob_txt fs (path_to_data </> "pos").

(** [ImdbReviewsDataset._load_data] *)
Definition _load_data (fs : FS) (self : t) : result t :=
  let files := data_files fs (_path_to_data self) in
  for_in (load_file fs) files self.

(** The object as [__init__] sets it up before it calls [_load_data]. *)
Definition new_dataset (path_to_data : path) (vocab : gmap string Z)
    (snt_clip txt_clip : Z) : t :=
  {| _path_to_data := path_to_data;
     _vocab := vocab;
     _snt_clip := snt_clip;
     _txt_clip := txt_clip;
     _paths := [];
     _texts := [];
     _labels := [];
     _txt_lens := [];
     _snt_lens := [] |}.

(** [ImdbReviewsDataset.__init__]: the loaded corpus, or the exception
    that aborted the load. *)
Definition __init__ (fs : FS) (path_to_data : path) (vocab : gmap string Z)
    (snt_clip txt_clip : Z) : result t :=
  _load_data fs (new_dataset path_to_data vocab snt_clip txt_clip).

End Corpus.

(** [ImdbReviewsDataset.__len__] *)
Definition __len__ (self : t) : nat := length (_texts self).

(** [ImdbReviewsDataset.__getitem__].  The [lru_cache] around it stores the
    value returned for an index and does not change it; an exception is
    raised again at each call. *)
Definition __getitem__ (self : t) (i : Z) : result TItem :=
  text ← py_index (_texts self) i;
  l ← py_index (_labels self) i;
  tl ← py_index (_txt_lens self) i;
  sl ← py_index (_snt_lens self) i;
  Ok {| txt := text; label := l; txt_len := tl; snt_len := sl |}.

End ImdbReviewsDataset.

(** ** Tensors and the collator *)

Inductive dtype : Type := float32 | int64.

(** The integers that an [int64] cell holds. *)
Definition in_int64 (v : Z) : Prop := (- 2 ^ 63 ≤ v < 2 ^ 63)%Z.

#[global] Instance in_int64_dec (v : Z) : Decision (in_int64 v).
Proof. unfold in_int64. apply _. Defined.

(** [torch.tensor(vals)] of a list of integers: the list as a tensor of
    [int64], refused when one of the integers is outside [int64]. *)
Definition torch_tensor (vals : list Z) : result (list Z) :=
  if decide (Forall in_int64 vals) then Ok vals else Raise RuntimeError_tensor.

(** A 2-D and a 3-D tensor: the shape, the element type and the cells as
    nested rows.  A cell holds the number stored in it; the integers the
    collator stores (labels 0 and 1, vocabulary ids) are stored exactly by
    both element types. *)
Record Tensor2 : Type := {
  t2_shape : nat * nat;
  t2_dtype : dtype;
  t2_data : list (list Z)
}.

Record Tensor3 : Type := {
  t3_shape : nat * nat * nat;
  t3_dtype : dtype;
  t3_data : list (list (list Z))
}.

(** [torch.zeros((n, m), dtype=dt)]: a negative dimension is refused. *)
Definition zeros2 (dt : dtype) (n m : Z) : result Tensor2 :=
  if ((n <? 0) || (m <? 0))%Z then Raise RuntimeError_tensor
  else Ok {| t2_shape := (Z.to_nat n, Z.to_nat m);
             t2_dtype := dt;
             t2_data := replicate (Z.to_nat n) (replicate (Z.to_nat m) 0%Z) |}.

(** [torch.zeros((n, a, b), dtype=dt)] *)
Definition zeros3 (dt : dtype) (n a b : Z) : result Tensor3 :=
  if ((n <? 0) || (a <? 0) || (b <? 0))%Z then Raise RuntimeError_tensor
  else Ok {| t3_shape := (Z.to_nat n, Z.to_nat a, Z.to_nat b);
             t3_dtype := dt;
             t3_data := replicate (Z.to_nat n)
                          (replicate (Z.to_nat a) (replicate (Z.to_nat b) 0%Z)) |}.

(** [T[i, j]] and [T[i, j, k]] for indices inside the shape. *)
Definition t2_get (T : Tensor2) (i j : nat) : option Z :=
  row ← t2_data T !! i; row !! j.

Definition t3_get (T : Tensor3) (i j k : nat) : option Z :=
  mat ← t3_data T !! i; row ← (mat : list (list Z)) !! j; (row : list Z) !! k.

(** [T[i] = v]: every cell of row [i] becomes [v]. *)
Definition t2_fill_row (T : Tensor2) (i : nat) (v : Z) : result Tensor2 :=
  let '(n, m) := t2_shape T in
  if decide (i < n) then
    Ok {| t2_shape := t2_shape T;
          t2_dtype := t2_dtype T;
          t2_data := <[i := replicate m v]> (t2_data T) |}
  else Raise IndexError_tensor.

(** [T[i, j, 0:len(vals)] = torch.tensor(vals)].  The right-hand side is
    built first.  The slice [0:len(vals)] is cut to the row's length [b];
    the values must then fill the slice exactly, except that a single
    value is broadcast, also over an empty slice. *)
Definition t3_assign_prefix (T : Tensor3) (i j : nat) (vals : list Z) : result Tensor3 :=
  vals ← torch_tensor vals;
  let '(n, a, b) := t3_shape T in
  if decide (i < n ∧ j < a) then
    let view := Nat.min (length vals) b in
    if decide (length vals = view) then
      Ok {| t3_shape := t3_shape T;
            t3_dtype := t3_dtype T;
            t3_data := alter (alter (λ row, vals ++ drop (length vals) row) j) i (t3_data T) |}
    else if decide (length vals = 1) then Ok T
    else Raise RuntimeError_tensor
  else Raise IndexError_tensor.

(** [enumerate(l)], counting from [k]. *)
Fixpoint enumerate_from {A} (k : nat) (l : list A) : list (nat * A) :=
  match l with
  | [] => []
  | x :: l' => (k, x) :: enumerate_from (S k) l'
  end.

Definition enumerate {A} (l : list A) : list (nat * A) := enumerate_from 0 l.

(** The dictionary [collate_docs] returns. *)
Record Batch : Type := {
  features : Tensor3;
  targets : Tensor2
}.

(** The inner loop of [collate_docs]: the sentences of document [i_doc]. *)
Definition collate_sentences (i_doc : nat) (sentences : TText) (docs_tensor : Tensor3)
  : result Tensor3 :=
  for_in (λ docs_tensor '(i_snt, snt), t3_assign_prefix docs_tensor i_doc i_snt snt)
         (enumerate sentences) docs_tensor.

(** The body of the outer loop of [collate_docs]. *)
Definition collate_item (acc : Tensor3 * Tensor2) (entry : nat * TItem)
  : result (Tensor3 * Tensor2) :=
  let '(docs_tensor, labels_tensor) := acc in
  let '(i_doc, item) := entry in
  labels_tensor ← t2_fill_row labels_tensor i_doc (label item);
  docs_tensor ← collate_sentences i_doc (txt item) docs_tensor;
  Ok (docs_tensor, labels_tensor).

(** [collate_docs] *)
Definition collate_docs (batch : list TItem) : result Batch :=
  max_snt ← py_max (snt_len <$> batch);
  max_txt ← py_max (txt_len <$> batch);
  let n_docs := Z.of_nat (length batch) in
  labels_tensor ← zeros2 float32 n_docs 1;
  docs_tensor ← zeros3 int64 n_docs max_txt max_snt;
  '(docs_tensor, labels_tensor) ←
    for_in collate_item (enumerate batch) (docs_tensor, labels_tensor);
  Ok {| features := docs_tensor; targets := labels_tensor |}.

(** ** The random source *)

(** The module-level generator of [random]: a stream of raw draws.  Every
    outcome of [random.choice] and [random.sample] is the outcome under some
    stream. *)
Definition Rng : Type := nat → nat.

(** A number below [n], and the rest of the stream. *)
Definition randbelow (n : nat) (g : Rng) : nat * Rng :=
  (g 0 `mod` n, λ i, g (S i)).

(** [random.choice(seq)] *)
Definition random_choice {A} (seq : list A) (g : Rng) : result (A * Rng) :=
  let '(j, g) := randbelow (length seq) g in
  match seq !! j with
  | Some x => Ok (x, g)
  | None => Raise IndexError_choice
  end.

(** The selection loop of [random.sample]: [k] times, a position of the
    pool of not yet selected elements is drawn, and its element leaves the
    pool. *)
Fixpoint sample_loop {A} (k : nat) (pool : list A) (g : Rng) : list A * Rng :=
  match k with
  | 0 => ([], g)
  | S k' =>
      let '(j, g) := randbelow (length pool) g in
      match pool !! j with
      | Some x =>
          let '(selected, g) := sample_loop k' (delete j pool) g in
          (x :: selected, g)
      | None => ([], g)
      end
  end.

(** [random.sample(population, k)] *)
Definition random_sample {A} (population : list A) (k : Z) (g : Rng)
  : result (list A * Rng) :=
  if ((k <? 0) || (Z.of_nat (length population) <? k))%Z then Raise ValueError_sample
  else Ok (sample_loop (Z.to_nat k) population g).

(** ** The sampler *)

(** [np.argsort(keys).tolist()]: the positions of [keys], by ascending key.
    NumPy sorts keys within [int64] as integers; keys beyond it are turned
    into another element type, and what is said of the order by key is said
    for keys within [int64] only.  NumPy's default sort leaves the order of
    positions with equal keys open; here it is the one merge sort gives. *)
Definition key_le (keys : list Z) (i j : nat) : Prop :=
  (keys !!! i ≤ keys !!! j)%Z.

#[global] Instance key_le_dec keys i j : Decision (key_le keys i j) :=
  Z_le_dec (keys !!! i) (keys !!! j).

Definition argsort (keys : list Z) : list nat :=
  merge_sort (key_le keys) (seq 0 (length keys)).

Module SimilarRandSampler.

(** A [SimilarRandSampler] object.  The field [_len], which [__init__]
    computes in floating point and [__iter__] does not read, is left out. *)
Record t : Type := {
  _ids : list nat;
  _bs : Z;
  _k : Z
}.

(** [SimilarRandSampler.__init__] *)
Definition __init__ (keys : list Z) (bs diversity : Z) : result t :=
  if ((bs >=? 1) && (diversity >=? 1))%Z then
    Ok {| _ids := argsort keys; _bs := bs; _k := diversity |}
  else Raise AssertionError.

(** The local variables at the end of one pass through the loop body of
    [__iter__]. *)
Record Step : Type := {
  idx : nat;
  lb : Z;
  rb : Z;
  batch : list nat;
  cur_ids : list nat;
  rng : Rng
}.

(** One pass through the body of the loop of [__iter__], from the pool
    [cur_ids]. *)
Definition iter_step (self : t) (cur_ids : list nat) (g : Rng) : result Step :=
  '(idx, g) ← random_choice (seq 0 (length cur_ids)) g;
  let lb := (0 `max` (Z.of_nat idx - _k self * _bs self))%Z in
  let rb := (Z.of_nat (length cur_ids) `min` (Z.of_nat idx + _k self * _bs self))%Z in
  '(batch, g) ← random_sample (py_slice cur_ids lb rb) (_bs self `min` (rb - lb))%Z g;
  (* rm ids from current batch from our pull *)
  let cur_ids := filter (λ e, e ∉ batch) cur_ids in
  Ok {| idx := idx; lb := lb; rb := rb; batch := batch; cur_ids := cur_ids; rng := g |}.

(** The loop of [__iter__], run for at most [fuel] passes: [None] when the
    pool is not empty after that many. *)
Fixpoint iter_loop (fuel : nat) (self : t) (cur_ids : list nat)
    (similar_key_batches : list nat) (g : Rng) : option (result (list nat * Rng)) :=
  match cur_ids with
  | [] => Some (Ok (similar_key_batches, g))
  | _ :: _ =>
      match fuel with
      | 0 => None
      | S fuel' =>
          match iter_step self cur_ids g with
          | Ok st =>
              iter_loop fuel' self (SimilarRandSampler.cur_ids st)
                        (similar_key_batches ++ batch st) (rng st)
          | Raise e => Some (Raise e)
          end
      end
  end.

(** [SimilarRandSampler.__iter__]: the sequence of indices behind the
    returned iterator, and the generator after the pass. *)
Definition __iter__ (fuel : nat) (self : t) (g : Rng) : option (result (list nat * Rng)) :=
  iter_loop fuel self (_ids self) [] g.

End SimilarRandSampler.


(** The file system with one more, empty, directory at [dir]. *)
Definition mkdir (dir : path) (fs : FS) : FS :=
  {| fs_dirs := <[dir := []]> (fs_dirs fs); fs_files := fs_files fs |}.

(** ** Corpus items *)

(** What [_load_data] establishes for every item of a corpus: the document
    has at least one sentence, [txt_len] is its number of sentences,
    [snt_len] the length of its longest sentence, and the label is 0 or 1. *)
Definition corpus_item (item : TItem) : Prop :=
  txt item ≠ []
  ∧ txt_len item = Z.of_nat (length (txt item))
  ∧ py_max ((λ snt, Z.of_nat (length snt)) <$> txt item) = Ok (snt_len item)
  ∧ (label item = 0 ∨ label item = 1)%Z.

(** The four parallel lists of a corpus, as the list of its items. *)
Definition items_of (self : ImdbReviewsDataset.t) (items : list TItem) : Prop :=
  ImdbReviewsDataset._texts self = txt <$> items
  ∧ ImdbReviewsDataset._labels self = label <$> items
  ∧ ImdbReviewsDataset._txt_lens self = txt_len <$> items
  ∧ ImdbReviewsDataset._snt_lens self = snt_len <$> items.

(** The cell [i, j, k] of the feature tensor that a batch calls for: the
    [k]-th id of sentence [j] of item [i], and 0 where there is none. *)
Definition expected_cell (batch : list TItem) (i j k : nat) : Z :=
  default 0%Z (item ← batch !! i; snt ← txt item !! j; (snt : list Z) !! k).

(** A sentence padded with zeros to [b] cells, and a document padded to [a]
    such rows. *)
Definition pad_row (b : nat) (snt : list Z) : list Z :=
  snt ++ replicate (b - length snt) 0%Z.

Definition pad_doc (a b : nat) (text : TText) : list (list Z) :=
  (pad_row b <$> text) ++ replicate (a - length text) (replicate b 0%Z).

(** A document whose ids are all within [int64]. *)
Definition ids_int64 (text : TText) : Prop := Forall (Forall in_int64) text.

#[global] Instance ids_int64_dec (text : TText) : Decision (ids_int64 text).
Proof. unfold ids_int64. apply _. Defined.

(** A document that fits in [a] rows of [b] cells. *)
Definition fits (a b : nat) (text : TText) : Prop :=
  length text ≤ a ∧ Forall (λ snt, length snt ≤ b) text.

(** ** Plain text

    The library functions on plain text: lower-case ASCII words separated
    by single spaces, without markup or punctuation, one sentence to a
    document, lines ended by a line feed.  On such text they return what
    [str.splitlines], [str.lower], the substitution of [<.*?>] and the two
    NLTK tokenizers return. *)
Module Plain.

Fixpoint split_on (c : ascii) (s : string) : list string :=
  match s with
  | EmptyString => [EmptyString]
  | String a s' =>
      if Ascii.eqb a c then EmptyString :: split_on c s'
      else match split_on c s' with
           | w :: ws => String a w :: ws
           | [] => [String a EmptyString]
           end
  end.

Definition nonempty (s : string) : bool := negb (String.eqb s EmptyString).

Definition splitlines (s : string) : list string :=
  let parts := split_on "010"%char s in
  match reverse parts with
  | last :: front => if nonempty last then parts else reverse front
  | [] => []
  end.

Definition str_lower (s : string) : string := s.

Definition html_sub (s : string) : string := s.

Definition tokenize_s (s : string) : list string :=
  if nonempty s then [s] else [].

Definition tokenize_w (s : string) : list string :=
  List.filter nonempty (split_on " "%char s).

(** [get_imdb_vocab], [__init__] and [tokenize_plane_text] on plain text. *)
Definition get_imdb_vocab := ImdbReviewsDataset.get_imdb_vocab splitlines.

Definition __init__ :=
  ImdbReviewsDataset.__init__ str_lower html_sub tokenize_s tokenize_w.

Definition tokenize_plane_text :=
  ImdbReviewsDataset.tokenize_plane_text str_lower html_sub tokenize_s tokenize_w.

End Plain.

(** ** Example inputs *)

Module Examples.

(** A vocabulary of two words. *)
Definition vocab : gmap string Z := {[ "good" := 1%Z; "bad" := 2%Z ]}.

Definition LF : string := String "010" EmptyString.

(** A data directory with one negative review and a vocabulary file of two
    lines. *)
Definition fs : FS :=
  {| fs_dirs := {[ ["data"; "neg"] := ["1_3.txt"; "notes.md"] ]};
     fs_files := {[ ["data"; "neg"; "1_3.txt"] := "good bad good";
                    ["data"; "imdb.vocab"] := "good" +:+ LF +:+ "bad" +:+ LF ]} |}.

(** The corpus loaded from [fs]. *)
Definition corpus : ImdbReviewsDataset.t :=
  {| ImdbReviewsDataset._path_to_data := ["data"];
     ImdbReviewsDataset._vocab := vocab;
     ImdbReviewsDataset._snt_clip := SNT_CLIP;
     ImdbReviewsDataset._txt_clip := TXT_CLIP;
     ImdbReviewsDataset._paths := [["data"; "neg"; "1_3.txt"]];
     ImdbReviewsDataset._texts := [[[1; 2; 1]]]%Z;
     ImdbReviewsDataset._labels := [0%Z];
     ImdbReviewsDataset._txt_lens := [1%Z];
     ImdbReviewsDataset._snt_lens := [3%Z] |}.

(** A vocabulary file that holds the same word on both of its lines. *)
Definition fs_duplicate : FS :=
  {| fs_dirs := ∅;
     fs_files := {[ ["data"; "imdb.vocab"] := "good" +:+ LF +:+ "good" +:+ LF ]} |}.

(** A file system without any directory. *)
Definition fs_empty : FS := {| fs_dirs := ∅; fs_files := ∅ |}.

(** A vocabulary whose one id is the least integer above [int64], the
    corpus loaded from [fs] with it, and the item of that corpus. *)
Definition vocab_wide : gmap string Z := {[ "good" := (2 ^ 63)%Z ]}.

Definition corpus_wide : ImdbReviewsDataset.t :=
  {| ImdbReviewsDataset._path_to_data := ["data"];
     ImdbReviewsDataset._vocab := vocab_wide;
     ImdbReviewsDataset._snt_clip := SNT_CLIP;
     ImdbReviewsDataset._txt_clip := TXT_CLIP;
     ImdbReviewsDataset._paths := [["data"; "neg"; "1_3.txt"]];
     ImdbReviewsDataset._texts := [[[2 ^ 63; 2 ^ 63]]]%Z;
     ImdbReviewsDataset._labels := [0%Z];
     ImdbReviewsDataset._txt_lens := [1%Z];
     ImdbReviewsDataset._snt_lens := [2%Z] |}.

Definition item_wide : TItem :=
  {| txt := [[2 ^ 63; 2 ^ 63]]%Z; label := 0; txt_len := 1; snt_len := 2 |}.

(** The items of a batch of two documents, of 2 and 3 sentences. *)
Definition batch : list TItem :=
  [ {| txt := [[1; 2]; [3]]%Z; label := 1; txt_len := 2; snt_len := 2 |};
    {| txt := [[4; 5; 6; 7]; [8]; []]%Z; label := 0; txt_len := 3; snt_len := 4 |} ].

(** The lengths of eight documents, a sampler for batches of two over
    them, and a stream of draws. *)
Definition keys : list Z := [5; 3; 9; 3; 1; 7; 7; 2]%Z.

Definition sampler : SimilarRandSampler.t :=
  {| SimilarRandSampler._ids := argsort keys;
     SimilarRandSampler._bs := 2;
     SimilarRandSampler._k := 1 |}.

Definition draws : Rng := λ i, 7 * i + 3.

End Examples.

(** ** The rest of the module: properties, passes, loaders *)

(** [ImdbReviewsDataset.vocab] and [ImdbReviewsDataset.txt_lens] *)
Definition vocab (self : ImdbReviewsDataset.t) : gmap string Z :=
  ImdbReviewsDataset._vocab self.

Definition txt_lens (self : ImdbReviewsDataset.t) : list Z :=
  ImdbReviewsDataset._txt_lens self.

(** The label [_load_data] gives to the review at [file_path]. *)
Definition file_label (file_path : path) : Z :=
  if String.eqb (parent_name file_path) "pos" then 1%Z else 0%Z.

(** The passes of the loop of [__iter__], each with its local variables:
    the same loop as [iter_loop], with the batches kept apart. *)
Fixpoint iter_passes (fuel : nat) (self : SimilarRandSampler.t) (cur_ids : list nat)
    (g : Rng) : option (result (list SimilarRandSampler.Step)) :=
  match cur_ids with
  | [] => Some (Ok [])
  | _ :: _ =>
      match fuel with
      | 0 => None
      | S fuel' =>
          match SimilarRandSampler.iter_step self cur_ids g with
          | Ok st =>
              match iter_passes fuel' self (SimilarRandSampler.cur_ids st)
                      (SimilarRandSampler.rng st) with
              | Some (Ok sts) => Some (Ok (st :: sts))
              | other => other
              end
          | Raise e => Some (Raise e)
          end
      end
  end.

(** The generator after the passes [sts], started with [g]. *)
Definition rng_after (g : Rng) (sts : list SimilarRandSampler.Step) : Rng :=
  default g (SimilarRandSampler.rng <$> last sts).

(** [[f(x) for x in l]], stopping at the first exception. *)
Fixpoint map_result {A B} (f : A → result B) (l : list A) : result (list B) :=
  match l with
  | [] => Ok []
  | x :: l' => y ← f x; ys ← map_result f l'; Ok (y :: ys)
  end.

(** The consecutive chunks of [n] elements of [l], the last one shorter
    when [n] does not divide the length: what a batch sampler that does not
    drop the last batch makes of a sequence of indices. *)
Fixpoint chunks_fuel {A} (fuel n : nat) (l : list A) : list (list A) :=
  match fuel, l with
  | 0, _ | _, [] => []
  | S fuel', _ :: _ => take n l :: chunks_fuel fuel' n (drop n l)
  end.

Definition chunks {A} (n : nat) (l : list A) : list (list A) :=
  chunks_fuel (length l) n l.

(** The sentence that a row of the feature tensor holds when no id is 0:
    the row up to its first 0. *)
Fixpoint unpad (row : list Z) : list Z :=
  match row with
  | [] => []
  | v :: row' => if decide (v = 0%Z) then [] else v :: unpad row'
  end.

(** The row [[i, j, :]] of a 3-D tensor. *)
Definition t3_row (T : Tensor3) (i j : nat) : option (list Z) :=
  mat ← t3_data T !! i; (mat : list (list Z)) !! j.

Module Loaders.

(** The exceptions of [get_loaders]: those of the code it calls, and the
    one with which [DataLoader] refuses a negative [num_workers]. *)
Inductive loader_exn : Type :=
| Raised (e : exn)
| ValueError_num_workers.

(** A [DataLoader] built with a sampler, a batch size and [collate_docs]
    as [collate_fn]. *)
Record DataLoader : Type := {
  dataset : ImdbReviewsDataset.t;
  sampler : SimilarRandSampler.t;
  batch_size : Z;
  num_workers : Z
}.

(** [[dataset[idx] for idx in indices]] and [collate_docs] on it: how the
    loader makes one batch. *)
Definition fetch (ds : ImdbReviewsDataset.t) (indices : list nat) : result Batch :=
  items ← map_result (λ idx, ImdbReviewsDataset.__getitem__ ds (Z.of_nat idx)) indices;
  collate_docs items.

(** One pass over a loader: the sampler's sequence of indices, cut into
    chunks of [batch_size], each fetched and collated. *)
Definition epoch (fuel : nat) (loader : DataLoader) (g : Rng)
  : option (result (list Batch * Rng)) :=
  match SimilarRandSampler.__iter__ fuel (sampler loader) g with
  | None => None
  | Some (Raise e) => Some (Raise e)
  | Some (Ok (order, g')) =>
      Some (batches ← map_result (fetch (dataset loader))
                         (chunks (Z.to_nat (batch_size loader)) order);
            Ok (batches, g'))
  end.

Section Loaders.
Variable splitlines : string → list string.
Variable str_lower html_sub : string → string.
Variable tokenize_s tokenize_w : string → list string.

(** [get_datasets] *)
Definition get_datasets (fs : FS) (imbd_root : path)
  : result (ImdbReviewsDataset.t * ImdbReviewsDataset.t) :=
  vocab ← ImdbReviewsDataset.get_imdb_vocab splitlines fs imbd_root;
  train_set ← ImdbReviewsDataset.__init__ str_lower html_sub tokenize_s tokenize_w
                 fs (imbd_root </> "train") vocab SNT_CLIP TXT_CLIP;
  test_set ← ImdbReviewsDataset.__init__ str_lower html_sub tokenize_s tokenize_w
                fs (imbd_root </> "test") vocab SNT_CLIP TXT_CLIP;
  Ok (train_set, test_set).

(** [get_test_dataset] *)
Definition get_test_dataset (fs : FS) (imbd_root : path) : result ImdbReviewsDataset.t :=
  vocab ← ImdbReviewsDataset.get_imdb_vocab splitlines fs imbd_root;
  ImdbReviewsDataset.__init__ str_lower html_sub tokenize_s tokenize_w
    fs (imbd_root </> "test") vocab SNT_CLIP TXT_CLIP.

(** [DataLoader(dataset=ds, sampler=SimilarRandSampler(keys=ds.txt_lens,
    bs=batch_size), num_workers=n_workers, batch_size=batch_size,
    collate_fn=collate_docs)]: the sampler is built first, with the
    default [diversity] of 10. *)
Definition make_loader (ds : ImdbReviewsDataset.t) (batch_size n_workers : Z)
  : loader_exn + DataLoader :=
  match SimilarRandSampler.__init__ (txt_lens ds) batch_size 10 with
  | Raise e => inl (Raised e)
  | Ok s =>
      if (n_workers <? 0)%Z then inl ValueError_num_workers
      else inr {| dataset := ds; sampler := s;
                  batch_size := batch_size; num_workers := n_workers |}
  end.

(** [get_loaders] *)
Definition get_loaders (fs : FS) (batch_size n_workers : Z) (imbd_root : path)
  : loader_exn + (DataLoader * DataLoader * gmap string Z) :=
  match get_datasets fs imbd_root with
  | Raise e => inl (Raised e)
  | Ok (train_set, test_set) =>
      match make_loader train_set batch_size n_workers with
      | inl e => inl e
      | inr train_loader =>
          match make_loader test_set batch_size n_workers with
          | inl e => inl e
          | inr test_loader =>
              inr (train_loader, test_loader, vocab (dataset train_loader))
          end
      end
  end.

End Loaders.

End Loaders.

(** A data set with a training and a test part. *)
Module Reviews.

Definition fs : FS :=
  {| fs_dirs := {[ ["imdb"; "train"; "neg"] := ["3_1.txt"];
                   ["imdb"; "train"; "pos"] := ["7_9.txt"; "readme.txt"];
                   ["imdb"; "test"; "pos"] := ["2_8.txt"] ]};
     fs_files := {[ ["imdb"; "train"; "neg"; "3_1.txt"] := "bad bad";
                    ["imdb"; "train"; "pos"; "7_9.txt"] := "good";
                    ["imdb"; "test"; "pos"; "2_8.txt"] := "good good bad";
                    ["imdb"; "imdb.vocab"]
                      := "good" +:+ Examples.LF +:+ "bad" +:+ Examples.LF ]} |}.

(** The training corpus loaded from [fs]. *)
Definition train_set : ImdbReviewsDataset.t :=
  {| ImdbReviewsDataset._path_to_data := ["imdb"; "train"];
     ImdbReviewsDataset._vocab := Examples.vocab;
     ImdbReviewsDataset._snt_clip := SNT_CLIP;
     ImdbReviewsDataset._txt_clip := TXT_CLIP;
     ImdbReviewsDataset._paths := [["imdb"; "train"; "neg"; "3_1.txt"];
                                   ["imdb"; "train"; "pos"; "7_9.txt"]];
     ImdbReviewsDataset._texts := [[[2; 2]]; [[1]]]%Z;
     ImdbReviewsDataset._labels := [0; 1]%Z;
     ImdbReviewsDataset._txt_lens := [1; 1]%Z;
     ImdbReviewsDataset._snt_lens := [2; 1]%Z |}.

(** The test corpus loaded from [fs]. *)
Definition test_set : ImdbReviewsDataset.t :=
  {| ImdbReviewsDataset._path_to_data := ["imdb"; "test"];
     ImdbReviewsDataset._vocab := Examples.vocab;
     ImdbReviewsDataset._snt_clip := SNT_CLIP;
     ImdbReviewsDataset._txt_clip := TXT_CLIP;
     ImdbReviewsDataset._paths := [["imdb"; "test"; "pos"; "2_8.txt"]];
     ImdbReviewsDataset._texts := [[[1; 1; 2]]]%Z;
     ImdbReviewsDataset._labels := [1%Z];
     ImdbReviewsDataset._txt_lens := [1%Z];
     ImdbReviewsDataset._snt_lens := [3%Z] |}.

(** The loader of the training corpus for batches of one document. *)
Definition train_loader : Loaders.DataLoader :=
  {| Loaders.dataset := train_set;
     Loaders.sampler := {| SimilarRandSampler._ids := argsort (txt_lens train_set);
                           SimilarRandSampler._bs := 1;
                           SimilarRandSampler._k := 10 |};
     Loaders.batch_size := 1;
     Loaders.num_workers := 4 |}.

End Reviews.

(** * Properties *)

(** ** The result monad and the built-ins *)

Lemma bind_Ok {A B} (m : result A) (f : A → result B) (b : B) :
  m ≫= f = Ok b ↔ ∃ a, m = Ok a ∧ f a = Ok b.
Proof.
  destruct m as [a|e]; cbn; split.
  - intros ?. by exists a.
  - by intros (? & [= <-] & ?).
  - done.
  - by intros (? & ? & ?).
Qed.

Lemma bind_Raise {A B} (m : result A) (f : A → result B) (e : exn) :
  m ≫= f = Raise e ↔ m = Raise e ∨ ∃ a, m = Ok a ∧ f a = Raise e.
Proof.
  destruct m as [a|e']; cbn; split.
  - intros ?. right. by exists a.
  - by intros [? | (? & [= <-] & ?)].
  - intros [= ->]. by left.
  - by intros [[= ->] | (? & ? & ?)].
Qed.

Lemma for_in_Raise {A S} (body : S → A → result S) (l : list A) (s : S) (e : exn) :
  for_in body l s = Raise e → ∃ s' x, x ∈ l ∧ body s' x = Raise e.
Proof.
  revert s. induction l as [|x l IH]; intros s; simpl; [done |].
  intros [H | (s' & _ & H)]%bind_Raise.
  - exists s, x. split; [left | done].
  - destruct (IH _ H) as (s'' & y & ? & ?). exists s'', y. split; [by right | done].
Qed.

Lemma for_in_app {A S} (body : S → A → result S) (l1 l2 : list A) (s : S) :
  for_in body (l1 ++ l2) s = for_in body l1 s ≫= for_in body l2.
Proof.
  revert s. induction l1 as [|x l1 IH]; intros s; simpl; [done |].
  destruct (body s x); simpl; [apply IH | done].
Qed.

Lemma py_max_Ok (l : list Z) : l ≠ [] → ∃ m, py_max l = Ok m.
Proof. destruct l; [done | eauto]. Qed.

Lemma py_max_Raise (l : list Z) (e : exn) :
  py_max l = Raise e ↔ l = [] ∧ e = ValueError_max_empty.
Proof.
  destruct l; simpl; split; try done.
  - by intros [= <-].
  - by intros [_ ->].
  - by intros [? _].
Qed.

Lemma foldl_max_ge (l : list Z) (x : Z) :
  (x ≤ foldl Z.max x l)%Z ∧ Forall (λ y, y ≤ foldl Z.max x l)%Z l.
Proof.
  revert x. induction l as [|y l IH]; intros x; simpl; [split; [lia | constructor] |].
  destruct (IH (x `max` y)%Z) as [H1 H2]. split; [lia |].
  constructor; [lia | done].
Qed.

Lemma foldl_max_elem (l : list Z) (x : Z) : foldl Z.max x l ∈ x :: l.
Proof.
  revert x. induction l as [|y l IH]; intros x; simpl; [left |].
  specialize (IH (x `max` y)%Z).
  apply elem_of_cons in IH as [-> | ?]; [| by do 2 right].
  destruct (Z.max_spec x y) as [[_ ->] | [_ ->]]; [right; left | left].
Qed.

Lemma py_max_ge (l : list Z) (m : Z) :
  py_max l = Ok m → Forall (λ y, y ≤ m)%Z l.
Proof.
  destruct l as [|x l]; simpl; [done |]. intros [= <-].
  destruct (foldl_max_ge l x). by constructor.
Qed.

Lemma py_max_elem (l : list Z) (m : Z) : py_max l = Ok m → m ∈ l.
Proof.
  destruct l as [|x l]; simpl; [done |]. intros [= <-]. apply foldl_max_elem.
Qed.

Lemma adjust_index_nonneg (len : nat) (i : Z) :
  (0 ≤ i)%Z → adjust_index len i = Z.to_nat i `min` len.
Proof. intros. unfold adjust_index. by rewrite (proj2 (Z.ltb_ge i 0)). Qed.

Lemma py_prefix_length {A} (l : list A) (hi : Z) :
  (0 ≤ hi)%Z → (Z.of_nat (length (py_prefix l hi)) ≤ hi)%Z.
Proof.
  intros. unfold py_prefix. rewrite adjust_index_nonneg, length_take by done. lia.
Qed.

Lemma py_prefix_subseteq {A} (l : list A) (hi : Z) : py_prefix l hi ⊆ l.
Proof. apply subseteq_take. Qed.

(** ** Construction of the sampler *)

Lemma sampler_init_args (keys : list Z) (bs diversity : Z) (s : SimilarRandSampler.t) :
  SimilarRandSampler.__init__ keys bs diversity = Ok s →
  (1 ≤ bs)%Z ∧ (1 ≤ diversity)%Z
  ∧ SimilarRandSampler._bs s = bs
  ∧ SimilarRandSampler._k s = diversity
  ∧ SimilarRandSampler._ids s = argsort keys.
Proof.
  unfold SimilarRandSampler.__init__.
  destruct (bs >=? 1)%Z eqn:Hbs; destruct (diversity >=? 1)%Z eqn:Hk; simpl; try done.
  intros [= <-]. simpl. rewrite Z.geb_leb in Hbs, Hk.
  apply Z.leb_le in Hbs, Hk. done.
Qed.

(** C9: the construction of a sampler fails if and only if [bs < 1] or
    [diversity < 1], and then with the assertion's exception; for [bs >= 1]
    and [diversity >= 1] it succeeds, and the sampler keeps the two values
    as they were given. *)
Theorem sampler_init_checks_arguments (keys : list Z) (bs diversity : Z) :
  (is_Raise (SimilarRandSampler.__init__ keys bs diversity)
     ↔ (bs < 1 ∨ diversity < 1)%Z)
  ∧ (∀ e, SimilarRandSampler.__init__ keys bs diversity = Raise e → e = AssertionError)
  ∧ ((1 ≤ bs)%Z → (1 ≤ diversity)%Z →
     ∃ s, SimilarRandSampler.__init__ keys bs diversity = Ok s
          ∧ SimilarRandSampler._bs s = bs
          ∧ SimilarRandSampler._k s = diversity
          ∧ SimilarRandSampler._ids s = argsort keys).
Proof.
  unfold SimilarRandSampler.__init__.
  destruct (bs >=? 1)%Z eqn:Hbs; destruct (diversity >=? 1)%Z eqn:Hk; simpl;
    rewrite ?Z.geb_leb in Hbs, Hk;
    try apply Z.leb_le in Hbs; try apply Z.leb_gt in Hbs;
    try apply Z.leb_le in Hk; try apply Z.leb_gt in Hk.
  - split; [| split].
    + split; [by intros [e ?] | lia].
    + done.
    + intros _ _. by eexists.
  - split; [| split]; [split; [lia | by exists AssertionError] | by intros e [= <-] | lia].
  - split; [| split]; [split; [lia | by exists AssertionError] | by intros e [= <-] | lia].
  - split; [| split]; [split; [lia | by exists AssertionError] | by intros e [= <-] | lia].
Qed.

Lemma sampler_init_checks_arguments_witness :
  ∃ s, SimilarRandSampler.__init__ [5; 3; 9; 3; 1]%Z 2 10 = Ok s
       ∧ SimilarRandSampler._bs s = 2%Z
       ∧ SimilarRandSampler._k s = 10%Z
       ∧ SimilarRandSampler._ids s = argsort [5; 3; 9; 3; 1]%Z.
Proof.
  apply (sampler_init_checks_arguments [5; 3; 9; 3; 1]%Z 2 10); lia.
Defined.

(** ** The collator on the empty batch *)

Lemma zeros2_Raise dt n m e : zeros2 dt n m = Raise e → e = RuntimeError_tensor.
Proof. unfold zeros2. case_match; [by intros [= <-] | done]. Qed.

Lemma zeros3_Raise dt n a b e : zeros3 dt n a b = Raise e → e = RuntimeError_tensor.
Proof. unfold zeros3. case_match; [by intros [= <-] | done]. Qed.

Lemma t2_fill_row_Raise T i v e : t2_fill_row T i v = Raise e → e = IndexError_tensor.
Proof.
  unfold t2_fill_row. destruct (t2_shape T). case_decide; [done | by intros [= <-]].
Qed.

Lemma t3_assign_prefix_Raise T i j vals e :
  t3_assign_prefix T i j vals = Raise e → e = IndexError_tensor ∨ e = RuntimeError_tensor.
Proof.
  unfold t3_assign_prefix, torch_tensor. destruct (t3_shape T) as [[n a] b].
  destruct (decide (Forall in_int64 vals)); cbn; [| intros [= <-]; auto].
  repeat case_decide; try done; intros [= <-]; auto.
Qed.

Lemma collate_item_Raise acc entry e :
  collate_item acc entry = Raise e → e = IndexError_tensor ∨ e = RuntimeError_tensor.
Proof.
  destruct acc as [docs labels], entry as [i item]. unfold collate_item.
  intros [H | (labels' & _ & H)]%bind_Raise.
  - left. by eapply t2_fill_row_Raise.
  - apply bind_Raise in H as [H | (? & _ & ?)]; [| done].
    apply for_in_Raise in H as (docs' & [j snt] & _ & H).
    by eapply t3_assign_prefix_Raise.
Qed.

(** C10: [collate_docs] fails on the empty batch, with the exception of
    [max] over an empty sequence, and that exception arises for no batch
    with at least one item. *)
Theorem collate_docs_empty_batch (batch : list TItem) :
  collate_docs [] = Raise ValueError_max_empty
  ∧ (collate_docs batch = Raise ValueError_max_empty ↔ batch = []).
Proof.
  split; [done |]. split; [| by intros ->].
  destruct batch as [|item batch]; [done |]. intros H. exfalso.
  unfold collate_docs in H.
  apply bind_Raise in H as [H | (max_snt & _ & H)]; [by apply py_max_Raise in H as [? _] |].
  apply bind_Raise in H as [H | (max_txt & _ & H)]; [by apply py_max_Raise in H as [? _] |].
  apply bind_Raise in H as [H | (labels & _ & H)]; [by apply zeros2_Raise in H |].
  apply bind_Raise in H as [H | (docs & _ & H)]; [by apply zeros3_Raise in H |].
  apply bind_Raise in H as [H | ([docs' labels'] & _ & H)]; [| done].
  apply for_in_Raise in H as (acc & entry & _ & H).
  by apply collate_item_Raise in H as [? | ?].
Qed.

Lemma collate_docs_empty_batch_witness :
  collate_docs [] = Raise ValueError_max_empty.
Proof. apply (collate_docs_empty_batch []). reflexivity. Defined.

(** ** The tokenizer *)

Section CorpusProperties.
Variable str_lower html_sub : string → string.
Variable tokenize_s tokenize_w : string → list string.

Local Abbreviation clipped_text :=
  (ImdbReviewsDataset.clipped_text tokenize_s tokenize_w).
Local Abbreviation tokenize_plane_text :=
  (ImdbReviewsDataset.tokenize_plane_text str_lower html_sub tokenize_s tokenize_w).
Local Abbreviation load_file :=
  (ImdbReviewsDataset.load_file str_lower html_sub tokenize_s tokenize_w).
Local Abbreviation _load_data :=
  (ImdbReviewsDataset._load_data str_lower html_sub tokenize_s tokenize_w).
Local Abbreviation __init__ :=
  (ImdbReviewsDataset.__init__ str_lower html_sub tokenize_s tokenize_w).

Lemma tokenize_plane_text_Ok self text_plane text m n :
  tokenize_plane_text self text_plane = Ok (text, m, n) ↔
    text = clipped_text self (html_sub (str_lower text_plane))
    ∧ py_max ((λ snt, Z.of_nat (length snt)) <$> text) = Ok m
    ∧ n = Z.of_nat (length text).
Proof.
  unfold ImdbReviewsDataset.tokenize_plane_text.
  rewrite bind_Ok. split.
  - intros (m' & Hm & [= <- <- <-]). done.
  - intros (-> & Hm & ->). by exists m.
Qed.

Lemma tokenize_plane_text_Raise self text_plane e :
  tokenize_plane_text self text_plane = Raise e ↔
    clipped_text self (html_sub (str_lower text_plane)) = [] ∧ e = ValueError_max_empty.
Proof.
  unfold ImdbReviewsDataset.tokenize_plane_text.
  rewrite bind_Raise, py_max_Raise. split.
  - intros [[H ->] | (? & _ & ?)]; [| done]. by apply fmap_nil_inv in H.
  - intros [-> ->]. by left.
Qed.

(** C3, amended: for a clip parameter that is not negative, the document
    that [tokenize_plane_text] returns has at most [txt_clip] sentences,
    respectively its sentences have at most [snt_clip] ids each; the
    document is returned whenever it has a sentence, and the returned
    length is its number of sentences. *)
Theorem tokenize_clip_bounds self text_plane :
  let doc := clipped_text self (html_sub (str_lower text_plane)) in
  ((0 ≤ ImdbReviewsDataset._txt_clip self)%Z →
     (Z.of_nat (length doc) ≤ ImdbReviewsDataset._txt_clip self)%Z)
  ∧ ((0 ≤ ImdbReviewsDataset._snt_clip self)%Z →
     Forall (λ snt, (Z.of_nat (length snt) ≤ ImdbReviewsDataset._snt_clip self)%Z) doc)
  ∧ (doc ≠ [] →
     ∃ m, tokenize_plane_text self text_plane = Ok (doc, m, Z.of_nat (length doc)))
  ∧ (∀ text m n, tokenize_plane_text self text_plane = Ok (text, m, n) →
     text = doc ∧ n = Z.of_nat (length text)).
Proof.
  intros doc. repeat split.
  - intros. by apply py_prefix_length.
  - intros Hclip. apply Forall_forall. intros snt Hsnt.
    apply py_prefix_subseteq, list_elem_of_fmap in Hsnt as (s & -> & _).
    by apply py_prefix_length.
  - intros Hdoc.
    destruct (py_max_Ok ((λ snt, Z.of_nat (length snt)) <$> doc)) as [m Hm].
    { by intros ?%fmap_nil_inv. }
    exists m. by apply tokenize_plane_text_Ok.
  - by apply tokenize_plane_text_Ok in H as (? & _ & _).
  - by apply tokenize_plane_text_Ok in H as (_ & _ & ?).
Qed.


(** *** Loading *)

(** The configuration of a dataset object. *)
Local Abbreviation same_config self self' :=
  (ImdbReviewsDataset._path_to_data self' = ImdbReviewsDataset._path_to_data self
   ∧ ImdbReviewsDataset._vocab self' = ImdbReviewsDataset._vocab self
   ∧ ImdbReviewsDataset._snt_clip self' = ImdbReviewsDataset._snt_clip self
   ∧ ImdbReviewsDataset._txt_clip self' = ImdbReviewsDataset._txt_clip self).

Lemma clipped_text_config self self' text :
  same_config self self' → clipped_text self' text = clipped_text self text.
Proof.
  intros (_ & Hv & Hs & Ht).
  unfold ImdbReviewsDataset.clipped_text, ImdbReviewsDataset.sentence_ids.
  by rewrite Hv, Hs, Ht.
Qed.

Lemma load_file_Ok fs self file_path self' :
  load_file fs self file_path = Ok self' →
  ∃ content item,
    fs_files fs !! file_path = Some content
    ∧ txt item = clipped_text self (html_sub (str_lower content))
    ∧ corpus_item item
    ∧ same_config self self'
    ∧ ImdbReviewsDataset._paths self' = ImdbReviewsDataset._paths self ++ [file_path]
    ∧ ImdbReviewsDataset._texts self' = ImdbReviewsDataset._texts self ++ [txt item]
    ∧ ImdbReviewsDataset._labels self' = ImdbReviewsDataset._labels self ++ [label item]
    ∧ ImdbReviewsDataset._txt_lens self' = ImdbReviewsDataset._txt_lens self ++ [txt_len item]
    ∧ ImdbReviewsDataset._snt_lens self' = ImdbReviewsDataset._snt_lens self ++ [snt_len item].
Proof.
  unfold ImdbReviewsDataset.load_file. intros (content & Hread & H)%bind_Ok.
  apply bind_Ok in H as ([[text m] n] & Htok & [= <-]).
  unfold open_read in Hread. destruct (fs_files fs !! file_path) as [c|] eqn:Hc; [| done].
  injection Hread as ->.
  apply tokenize_plane_text_Ok in Htok as (Htext & Hm & Hn).
  exists content,
    {| txt := text;
       label := if String.eqb (parent_name file_path) "pos" then 1%Z else 0%Z;
       txt_len := n;
       snt_len := m |}.
  simpl. repeat split; try done.
  - simpl. intros E. by rewrite E in Hm.
  - simpl. destruct (String.eqb _ _); auto.
Qed.

Lemma load_file_Raise fs self file_path e :
  load_file fs self file_path = Raise e ↔
    (fs_files fs !! file_path = None ∧ e = OSError_open)
    ∨ (∃ content, fs_files fs !! file_path = Some content
         ∧ clipped_text self (html_sub (str_lower content)) = []
         ∧ e = ValueError_max_empty).
Proof.
  unfold ImdbReviewsDataset.load_file. rewrite bind_Raise. unfold open_read.
  destruct (fs_files fs !! file_path) as [c|] eqn:Hc.
  - split.
    + intros [? | (content & [= <-] & H)]; [done |]. right. exists c. split; [done |].
      apply bind_Raise in H as [H | ([[text m] n] & _ & ?)]; [| done].
      by apply tokenize_plane_text_Raise in H.
    + intros [[? _] | (content & [= <-] & Hdoc & ->)]; [done |]. right.
      exists c. split; [done |]. apply bind_Raise. left.
      by apply tokenize_plane_text_Raise.
  - split.
    + intros [[= <-] | (content & ? & _)]; [by left | done].
    + intros [[_ ->] | (content & ? & _)]; [by left | done].
Qed.

Lemma items_of_snoc self self' items item :
  items_of self items →
  ImdbReviewsDataset._texts self' = ImdbReviewsDataset._texts self ++ [txt item] →
  ImdbReviewsDataset._labels self' = ImdbReviewsDataset._labels self ++ [label item] →
  ImdbReviewsDataset._txt_lens self' = ImdbReviewsDataset._txt_lens self ++ [txt_len item] →
  ImdbReviewsDataset._snt_lens self' = ImdbReviewsDataset._snt_lens self ++ [snt_len item] →
  items_of self' (items ++ [item]).
Proof.
  intros (H1 & H2 & H3 & H4) E1 E2 E3 E4. unfold items_of.
  rewrite !fmap_app, E1, E2, E3, E4, H1, H2, H3, H4. done.
Qed.

Lemma load_files_Ok fs files self self' items :
  items_of self items → Forall corpus_item items →
  for_in (load_file fs) files self = Ok self' →
  same_config self self'
  ∧ ∃ items', Forall corpus_item items' ∧ items_of self' items'
              ∧ length items' = length items + length files.
Proof.
  revert self items. induction files as [|f files IH]; intros self items Hitems Hwf; simpl.
  - intros [= <-]. split; [done |]. exists items. split_and!; [done | done | lia].
  - intros (self1 & Hf & Hrest)%bind_Ok.
    apply load_file_Ok in Hf
      as (content & item & _ & _ & Hitem & Hcfg & _ & E1 & E2 & E3 & E4).
    destruct (IH self1 (items ++ [item])) as (Hcfg' & items' & ? & ? & Hlen); [| | done |].
    + by eapply items_of_snoc.
    + apply Forall_app. split; [done | by constructor].
    + split.
      * destruct Hcfg as (? & ? & ? & ?), Hcfg' as (? & ? & ? & ?).
        split_and!; congruence.
      * exists items'. split_and!; [done | done |].
        rewrite Hlen, length_app. simpl. lia.
Qed.

(** Every item of a loaded corpus is a [corpus_item]. *)
Lemma init_Ok fs path_to_data vocab snt_clip txt_clip ds :
  __init__ fs path_to_data vocab snt_clip txt_clip = Ok ds →
  ∃ items, Forall corpus_item items ∧ items_of ds items
           ∧ length items = length (ImdbReviewsDataset.data_files fs path_to_data).
Proof.
  unfold ImdbReviewsDataset.__init__, ImdbReviewsDataset._load_data. intros H.
  eapply (load_files_Ok _ _ _ _ []) in H as (_ & items & ? & ? & ?); [by exists items | done | done].
Qed.

Lemma load_files_empty_document fs files self0 self file_path content :
  same_config self0 self →
  file_path ∈ files →
  fs_files fs !! file_path = Some content →
  clipped_text self0 (html_sub (str_lower content)) = [] →
  is_Raise (for_in (load_file fs) files self).
Proof.
  intros Hcfg Hin Hread Hdoc. revert self Hcfg.
  induction files as [|f files IH]; intros self Hcfg; [by apply elem_of_nil in Hin |].
  simpl. destruct (load_file fs self f) as [self1|e] eqn:Hf; [| by exists e].
  apply load_file_Ok in Hf as (content' & item & Hread' & Htxt & (Hne & _) & Hcfg1 & _).
  apply elem_of_cons in Hin as [<- | Hin].
  - rewrite Hread in Hread'. injection Hread' as <-.
    rewrite (clipped_text_config self0 self) in Htxt by done. congruence.
  - apply IH; [done |].
    destruct Hcfg as (? & ? & ? & ?), Hcfg1 as (? & ? & ? & ?). split_and!; congruence.
Qed.

(** C5: for a document that has no sentence after clipping,
    [tokenize_plane_text] raises the exception of [max] over an empty
    sequence, and only for such a document; a load that reads such a
    document raises, and no loaded corpus holds a document without
    sentences. *)
Theorem empty_document_aborts_load self content :
  (tokenize_plane_text self content = Raise ValueError_max_empty
     ↔ clipped_text self (html_sub (str_lower content)) = [])
  ∧ (clipped_text self (html_sub (str_lower content)) = [] →
     ∀ fs file_path,
       file_path ∈ ImdbReviewsDataset.data_files fs (ImdbReviewsDataset._path_to_data self) →
       fs_files fs !! file_path = Some content →
       is_Raise (_load_data fs self))
  ∧ (∀ fs path_to_data vocab snt_clip txt_clip ds,
       __init__ fs path_to_data vocab snt_clip txt_clip = Ok ds →
       Forall (λ text, text ≠ []) (ImdbReviewsDataset._texts ds)).
Proof.
  split_and!.
  - rewrite tokenize_plane_text_Raise. split; [by intros [? _] | done].
  - intros Hdoc fs file_path Hin Hread.
    by eapply (load_files_empty_document fs _ self self).
  - intros fs path_to_data vocab snt_clip txt_clip ds H.
    apply init_Ok in H as (items & Hwf & (-> & _) & _).
    apply Forall_fmap. eapply Forall_impl; [done |]. by intros item (? & _).
Qed.

(** *** Access by index *)

Lemma py_index_fmap {A B} (f : A → B) (l : list A) (i : Z) :
  py_index (f <$> l) i = x ← py_index l i; Ok (f x).
Proof.
  unfold py_index. rewrite length_fmap, list_lookup_fmap.
  destruct (_ || _); [done |]. by destruct (l !! _).
Qed.

Lemma py_index_outside {A} (l : list A) (i : Z) :
  (i < - Z.of_nat (length l) ∨ Z.of_nat (length l) ≤ i)%Z →
  py_index l i = Raise IndexError_list.
Proof.
  intros Hi. unfold py_index.
  destruct (i <? 0)%Z eqn:Hneg; [apply Z.ltb_lt in Hneg | apply Z.ltb_ge in Hneg].
  - by rewrite (proj2 (Z.ltb_lt (i + Z.of_nat (length l)) 0)) by lia.
  - rewrite (proj2 (Z.ltb_ge i 0)) by lia.
    by rewrite (proj2 (Z.leb_le (Z.of_nat (length l)) i)) by lia.
Qed.

Lemma py_index_inside {A} (l : list A) (i : Z) :
  (0 ≤ i < Z.of_nat (length l))%Z →
  ∃ x, l !! Z.to_nat i = Some x ∧ py_index l i = Ok x.
Proof.
  intros Hi. unfold py_index.
  assert ((i <? 0)%Z = false) as Hneg by (apply Z.ltb_ge; lia).
  assert ((Z.of_nat (length l) <=? i)%Z = false) as Hle by (apply Z.leb_gt; lia).
  rewrite Hneg. cbn. rewrite Hneg, Hle. cbn.
  destruct (lookup_lt_is_Some_2 l (Z.to_nat i)) as [x Hx]; [lia |].
  exists x. by rewrite Hx.
Qed.

Lemma py_index_negative {A} (l : list A) (i : Z) :
  (- Z.of_nat (length l) ≤ i < 0)%Z →
  py_index l i = py_index l (i + Z.of_nat (length l)).
Proof.
  intros Hi. unfold py_index.
  assert ((i <? 0)%Z = true) as -> by (apply Z.ltb_lt; lia).
  assert ((i + Z.of_nat (length l) <? 0)%Z = false) as Hnn by (apply Z.ltb_ge; lia).
  rewrite Hnn. cbn. by rewrite Hnn.
Qed.

Lemma getitem_items self items i :
  items_of self items → ImdbReviewsDataset.__getitem__ self i = py_index items i.
Proof.
  intros (H1 & H2 & H3 & H4). unfold ImdbReviewsDataset.__getitem__.
  rewrite H1, H2, H3, H4, !py_index_fmap.
  destruct (py_index items i) as [[]|]; done.
Qed.

(** C7, amended: on a loaded corpus of length [L], [__getitem__] raises
    the list's index error for every index below [-L] or from [L] on,
    returns the item at the index for [0 <= index < L], and for
    [-L <= index < 0] returns the item at [index + L]. *)
Theorem getitem_index_range fs path_to_data vocab snt_clip txt_clip ds (i : Z) :
  __init__ fs path_to_data vocab snt_clip txt_clip = Ok ds →
  let L := Z.of_nat (ImdbReviewsDataset.__len__ ds) in
  ((i < - L ∨ L ≤ i)%Z → ImdbReviewsDataset.__getitem__ ds i = Raise IndexError_list)
  ∧ ((0 ≤ i < L)%Z →
     ∃ item, ImdbReviewsDataset.__getitem__ ds i = Ok item
             ∧ corpus_item item
             ∧ ImdbReviewsDataset._texts ds !! Z.to_nat i = Some (txt item)
             ∧ ImdbReviewsDataset._labels ds !! Z.to_nat i = Some (label item))
  ∧ ((- L ≤ i < 0)%Z →
     ImdbReviewsDataset.__getitem__ ds i = ImdbReviewsDataset.__getitem__ ds (i + L)).
Proof.
  intros (items & Hwf & Hitems & _)%init_Ok L.
  assert (L = Z.of_nat (length items)) as HL.
  { unfold L, ImdbReviewsDataset.__len__. destruct Hitems as (-> & _).
    by rewrite length_fmap. }
  rewrite !(getitem_items ds items) by done. rewrite HL. split_and!.
  - apply py_index_outside.
  - intros Hi. destruct (py_index_inside items i Hi) as (item & Hlook & ->).
    exists item. destruct Hitems as (-> & -> & _).
    rewrite !list_lookup_fmap, Hlook. split_and!; try done.
    by eapply Forall_lookup_1.
  - apply py_index_negative.
Qed.

(** *** Absent directories *)

Lemma glob_txt_absent fs dir : fs_dirs fs !! dir = None → glob_txt fs dir = [].
Proof. intros H. unfold glob_txt. by rewrite H. Qed.

Lemma glob_txt_mkdir fs dir dir' :
  fs_dirs fs !! dir = None → glob_txt (mkdir dir fs) dir' = glob_txt fs dir'.
Proof.
  intros H. unfold glob_txt, mkdir. simpl.
  destruct (decide (dir = dir')) as [<- | Hne].
  - by rewrite lookup_insert_eq, H.
  - by rewrite lookup_insert_ne.
Qed.

(** C8, amended: [_load_data] does not check that the directories exist.
    An absent [neg] or [pos] directory is read as an empty one, and with
    both absent the load succeeds with a corpus of no documents. *)
Theorem load_absent_directory fs self :
  let root := ImdbReviewsDataset._path_to_data self in
  (∀ d, fs_dirs fs !! (root </> d) = None →
        _load_data fs self = _load_data (mkdir (root </> d) fs) self)
  ∧ (fs_dirs fs !! (root </> "neg") = None →
     fs_dirs fs !! (root </> "pos") = None →
     _load_data fs self = Ok self).
Proof.
  intros root. split.
  - intros d Habs.
    unfold ImdbReviewsDataset._load_data, ImdbReviewsDataset.data_files.
    fold root. by rewrite !(glob_txt_mkdir fs (root </> d)).
  - intros Hneg Hpos.
    unfold ImdbReviewsDataset._load_data, ImdbReviewsDataset.data_files.
    fold root. by rewrite !glob_txt_absent.
Qed.

End CorpusProperties.

(** ** The vocabulary *)

Lemma dict_snoc {V} (kvs : list (string * V)) (k : string) (v : V) :
  dict (kvs ++ [(k, v)]) = <[k := v]> (dict kvs).
Proof. unfold dict. by rewrite foldl_app. Qed.

(** A key of [dict(kvs)] maps to the value of its last pair in [kvs]. *)
Lemma dict_lookup_Some {V} (kvs : list (string * V)) (k : string) (v : V) :
  dict kvs !! k = Some v ↔
    ∃ i, kvs !! i = Some (k, v) ∧ ∀ j v', i < j → kvs !! j ≠ Some (k, v').
Proof.
  revert v. induction kvs as [|[k' v'] kvs IH] using rev_ind; intros v.
  - split; [done | by intros (i & ? & _)].
  - rewrite dict_snoc. destruct (decide (k' = k)) as [-> | Hne].
    + rewrite lookup_insert_eq. split.
      * intros [= ->]. exists (length kvs). split.
        { by rewrite lookup_app_r, Nat.sub_diag by lia. }
        intros j v'' Hj. rewrite lookup_ge_None_2; [done |]. rewrite length_app. simpl. lia.
      * intros (i & Hi & Hlast).
        destruct (decide (i = length kvs)) as [-> | Hi'].
        { rewrite lookup_app_r, Nat.sub_diag in Hi by lia. by injection Hi as ->. }
        exfalso. apply (Hlast (length kvs) v').
        { apply lookup_lt_Some in Hi. rewrite length_app in Hi. simpl in Hi. lia. }
        by rewrite lookup_app_r, Nat.sub_diag by lia.
    + rewrite lookup_insert_ne, IH by done. split.
      * intros (i & Hi & Hlast). exists i. split.
        { by rewrite lookup_app_l by (by eapply lookup_lt_Some). }
        intros j v'' Hj Hjs.
        destruct (decide (j < length kvs)).
        { rewrite lookup_app_l in Hjs by done. by eapply Hlast. }
        rewrite lookup_app_r in Hjs by lia.
        destruct (j - length kvs); [by injection Hjs as -> | done].
      * intros (i & Hi & Hlast).
        destruct (decide (i < length kvs)).
        { rewrite lookup_app_l in Hi by done. exists i. split; [done |].
          intros j v'' Hj Hjs. apply (Hlast j v''); [done |].
          by rewrite lookup_app_l by (by eapply lookup_lt_Some). }
        rewrite lookup_app_r in Hi by lia.
        destruct (i - length kvs); [by injection Hi as -> | done].
Qed.

Lemma dict_lookup_is_Some {V} (kvs : list (string * V)) (k : string) :
  is_Some (dict kvs !! k) ↔ k ∈ kvs.*1.
Proof.
  induction kvs as [|[k' v'] kvs IH] using rev_ind.
  - unfold dict. simpl. rewrite lookup_empty, elem_of_nil. split; [by intros [] | done].
  - rewrite dict_snoc, fmap_app, elem_of_app. simpl.
    destruct (decide (k' = k)) as [-> | Hne].
    + rewrite lookup_insert_eq. split; [intros _; right; left | by eexists].
    + rewrite lookup_insert_ne, IH by done. split; [by left |].
      intros [? | ?%list_elem_of_singleton]; [done | congruence].
Qed.

Lemma zip_ids_lookup (words : list string) (i : nat) (w : string) (v : Z) :
  zip words (py_range 1 (Z.of_nat (length words) + 1)) !! i = Some (w, v)
  ↔ words !! i = Some w ∧ v = (Z.of_nat i + 1)%Z.
Proof.
  unfold py_range. rewrite lookup_zip_with_Some. split.
  - intros (x & y & [= -> ->] & Hx & Hy). apply lookup_seqZ in Hy as [-> _].
    split; [done | lia].
  - intros [Hw ->]. exists w, (Z.of_nat i + 1)%Z. split_and!; [done | done |].
    apply lookup_seqZ. apply lookup_lt_Some in Hw. lia.
Qed.

(** C4, amended: the vocabulary maps a word to the number, counted from 1,
    of the last line of the file that holds it; every mapped id lies in
    [1..N], and 0 is never one.  When the lines of the file are pairwise
    distinct, the words and the ids [1..N] correspond one to one, in file
    order. *)
Theorem vocab_ids (splitlines : string → list string) (fs : FS) (imdb_root : path)
    (content : string) :
  fs_files fs !! (imdb_root </> "imdb.vocab") = Some content →
  let words := splitlines content in
  let N := Z.of_nat (length words) in
  ∃ vocab,
    ImdbReviewsDataset.get_imdb_vocab splitlines fs imdb_root = Ok vocab
    ∧ (∀ w i, vocab !! w = Some i ↔
         (1 ≤ i ≤ N)%Z ∧ words !! Z.to_nat (i - 1) = Some w
         ∧ ∀ j, Z.to_nat (i - 1) < j → words !! j ≠ Some w)
    ∧ (∀ w, vocab !! w ≠ Some 0%Z)
    ∧ (∀ w, w ∈ words ↔ is_Some (vocab !! w))
    ∧ (NoDup words →
       ∀ w i, vocab !! w = Some i ↔ (1 ≤ i ≤ N)%Z ∧ words !! Z.to_nat (i - 1) = Some w).
Proof.
  intros Hread words N.
  unfold ImdbReviewsDataset.get_imdb_vocab, open_read. rewrite Hread. cbn.
  fold words. set (vocab := dict _). exists vocab.
  assert (∀ w i, vocab !! w = Some i ↔
            (1 ≤ i ≤ N)%Z ∧ words !! Z.to_nat (i - 1) = Some w
            ∧ ∀ j, Z.to_nat (i - 1) < j → words !! j ≠ Some w) as Hspec.
  { intros w i. unfold vocab. rewrite dict_lookup_Some. split.
    - intros (p & Hp & Hlast). apply zip_ids_lookup in Hp as [Hw ->].
      replace (Z.to_nat (Z.of_nat p + 1 - 1)) with p by lia.
      split_and!; [lia | | done |].
      + apply lookup_lt_Some in Hw. unfold N. lia.
      + intros j Hj Hjw. apply (Hlast j (Z.of_nat j + 1)%Z Hj). by apply zip_ids_lookup.
    - intros (Hi & Hw & Hlast). exists (Z.to_nat (i - 1)). split.
      + apply zip_ids_lookup. split; [done | lia].
      + intros j v Hj [Hjw _]%zip_ids_lookup. by apply (Hlast j). }
  split_and!; [done | done | | | ].
  - intros w [Hi _]%Hspec. lia.
  - intros w. split.
    + intros Hw. unfold vocab. apply dict_lookup_is_Some.
      rewrite fst_zip; [done |]. unfold py_range. rewrite length_seqZ. lia.
    + intros [i (_ & Hw & _)%Hspec]. by eapply list_elem_of_lookup_2.
  - intros Hnd w i. rewrite Hspec. split; [by intros (? & ? & _) |].
    intros (Hi & Hw). split; [done | split; [done |]].
    intros j Hj Hjw. pose proof (NoDup_lookup _ _ _ _ Hnd Hw Hjw). lia.
Qed.

(** ** The random source *)

Lemma randbelow_lt (n : nat) (g : Rng) : 0 < n → (randbelow n g).1 < n.
Proof. intros. simpl. apply Nat.mod_upper_bound. lia. Qed.

Lemma random_choice_range (n : nat) (g : Rng) :
  0 < n → ∃ p, random_choice (seq 0 n) g = Ok (p, (randbelow n g).2) ∧ p < n.
Proof.
  intros Hn. unfold random_choice. rewrite length_seq.
  pose proof (randbelow_lt n g Hn) as Hlt. destruct (randbelow n g) as [j g'].
  simpl in *. rewrite lookup_seq_lt by done. by exists j.
Qed.

Lemma submseteq_NoDup {A} (l k : list A) : l ⊆+ k → NoDup k → NoDup l.
Proof.
  intros [k' Hk]%submseteq_Permutation Hnd. rewrite Hk in Hnd.
  by apply NoDup_app in Hnd as (? & _ & _).
Qed.

(** [random.sample] selects without replacement: what it returns is, up to
    order, a part of the population, each element taken as often as it
    occurs there at most. *)
Lemma sample_loop_submseteq {A} (k : nat) (pool : list A) (g : Rng) :
  (sample_loop k pool g).1 ⊆+ pool.
Proof.
  revert pool g. induction k as [|k IH]; intros pool g; simpl.
  - apply submseteq_nil_l.
  - destruct (pool !! _) as [x|] eqn:Hx; [| apply submseteq_nil_l].
    specialize (IH (delete (g 0 `mod` length pool) pool) (λ i, g (S i))).
    destruct (sample_loop k _ _) as [selected g']. simpl in *.
    rewrite (delete_Permutation pool _ x Hx). by apply submseteq_skip.
Qed.

Lemma sample_loop_length {A} (k : nat) (pool : list A) (g : Rng) :
  k ≤ length pool → length (sample_loop k pool g).1 = k.
Proof.
  revert pool g. induction k as [|k IH]; intros pool g Hk; simpl; [done |].
  destruct (lookup_lt_is_Some_2 pool (g 0 `mod` length pool)) as [x Hx].
  { apply Nat.mod_upper_bound. lia. }
  rewrite Hx.
  specialize (IH (delete (g 0 `mod` length pool) pool) (λ i, g (S i))).
  destruct (sample_loop k _ _) as [selected g']. simpl in *.
  rewrite IH; [done |]. rewrite length_delete by eauto. lia.
Qed.

Lemma random_sample_Ok {A} (population : list A) (k : Z) (g : Rng) :
  (0 ≤ k ≤ Z.of_nat (length population))%Z →
  ∃ selected g', random_sample population k g = Ok (selected, g')
                 ∧ selected ⊆+ population
                 ∧ Z.of_nat (length selected) = k.
Proof.
  intros Hk. unfold random_sample.
  assert ((k <? 0)%Z = false) as -> by (apply Z.ltb_ge; lia).
  assert ((Z.of_nat (length population) <? k)%Z = false) as -> by (apply Z.ltb_ge; lia).
  simpl.
  pose proof (sample_loop_submseteq (Z.to_nat k) population g).
  pose proof (sample_loop_length (Z.to_nat k) population g).
  destruct (sample_loop _ _ _) as [selected g']. exists selected, g'.
  simpl in *. split_and!; [done | done | lia].
Qed.

(** ** Slices *)

Lemma py_slice_inside {A} (l : list A) (lo hi : Z) :
  (0 ≤ lo ≤ hi)%Z → (hi ≤ Z.of_nat (length l))%Z →
  py_slice l lo hi = take (Z.to_nat hi - Z.to_nat lo) (drop (Z.to_nat lo) l).
Proof.
  intros. unfold py_slice. rewrite !adjust_index_nonneg by lia.
  by rewrite !Nat.min_l by lia.
Qed.

Lemma py_slice_length {A} (l : list A) (lo hi : Z) :
  (0 ≤ lo ≤ hi)%Z → (hi ≤ Z.of_nat (length l))%Z →
  Z.of_nat (length (py_slice l lo hi)) = (hi - lo)%Z.
Proof.
  intros. rewrite py_slice_inside, length_take, length_drop by done. lia.
Qed.

Lemma py_slice_elem {A} (l : list A) (lo hi : Z) (x : A) :
  (0 ≤ lo ≤ hi)%Z → (hi ≤ Z.of_nat (length l))%Z →
  x ∈ py_slice l lo hi ↔ ∃ q, (lo ≤ Z.of_nat q < hi)%Z ∧ l !! q = Some x.
Proof.
  intros. rewrite py_slice_inside by done. rewrite elem_of_take. split.
  - intros (i & Hi & ?). rewrite lookup_drop in Hi.
    exists (Z.to_nat lo + i). split; [lia | done].
  - intros (q & ? & Hq). exists (q - Z.to_nat lo). rewrite lookup_drop.
    replace (Z.to_nat lo + (q - Z.to_nat lo)) with q by lia. split; [done | lia].
Qed.

Lemma py_slice_submseteq {A} (l : list A) (lo hi : Z) : py_slice l lo hi ⊆+ l.
Proof.
  unfold py_slice. etrans; [apply submseteq_take |]. apply sublist_submseteq, sublist_drop.
Qed.

(** ** One pass of the sampler's loop *)

Section SamplerProperties.
Import SimilarRandSampler.

Lemma iter_step_Ok (self : t) (pool : list nat) (g : Rng) :
  (1 ≤ _bs self)%Z → (1 ≤ _k self)%Z → pool ≠ [] →
  ∃ st, iter_step self pool g = Ok st
    ∧ idx st < length pool
    ∧ lb st = (0 `max` (Z.of_nat (idx st) - _k self * _bs self))%Z
    ∧ rb st = (Z.of_nat (length pool) `min` (Z.of_nat (idx st) + _k self * _bs self))%Z
    ∧ batch st ⊆+ py_slice pool (lb st) (rb st)
    ∧ Z.of_nat (length (batch st)) = (_bs self `min` (rb st - lb st))%Z
    ∧ cur_ids st = filter (λ e, e ∉ batch st) pool.
Proof.
  intros Hbs Hk Hpool. unfold iter_step.
  destruct (random_choice_range (length pool) g) as (p & -> & Hp).
  { destruct pool; [done | simpl; lia]. }
  cbn.
  set (lo := (0 `max` (Z.of_nat p - _k self * _bs self))%Z).
  set (hi := (Z.of_nat (length pool) `min` (Z.of_nat p + _k self * _bs self))%Z).
  assert (1 ≤ _k self * _bs self)%Z by nia.
  destruct (random_sample_Ok (py_slice pool lo hi) (_bs self `min` (hi - lo))%Z
              (λ i, g (S i))) as (selected & g' & -> & Hsub & Hlen).
  { rewrite py_slice_length by lia. lia. }
  cbn. eexists. split; [done |]. cbn. split_and!; done.
Qed.

(** C6: in every pass of the loop, from a pool that is not empty and with
    [bs >= 1] and [diversity >= 1], the anchor is a position of the pool,
    the window around it is [[max(0, idx - k*bs), min(len, idx + k*bs))],
    which holds the anchor and at most [2*k*bs] positions; the batch is
    drawn from the window without replacement, so each of its indices
    stands at a position of the window, and it has
    [min(bs, window size)] elements. *)
Theorem iter_step_window (keys : list Z) (bs diversity : Z) (self : t)
    (pool : list nat) (g : Rng) :
  __init__ keys bs diversity = Ok self →
  pool ≠ [] →
  ∃ st, iter_step self pool g = Ok st
    ∧ idx st < length pool
    ∧ lb st = (0 `max` (Z.of_nat (idx st) - diversity * bs))%Z
    ∧ rb st = (Z.of_nat (length pool) `min` (Z.of_nat (idx st) + diversity * bs))%Z
    ∧ (lb st ≤ Z.of_nat (idx st) < rb st)%Z
    ∧ (rb st - lb st ≤ 2 * diversity * bs)%Z
    ∧ batch st ⊆+ py_slice pool (lb st) (rb st)
    ∧ (∀ e, e ∈ batch st →
            ∃ q, (lb st ≤ Z.of_nat q < rb st)%Z ∧ pool !! q = Some e)
    ∧ Z.of_nat (length (batch st)) = (bs `min` (rb st - lb st))%Z
    ∧ (NoDup pool → NoDup (batch st)).
Proof.
  intros Hinit Hpool.
  destruct (sampler_init_args keys bs diversity self Hinit) as (Hbs & Hk & Ebs & Ek & _).
  destruct (iter_step_Ok self pool g) as (st & Hst & Hidx & Hlb & Hrb & Hsub & Hlen & _);
    [lia | lia | done |].
  rewrite Ebs, Ek in *.
  assert (1 ≤ diversity * bs)%Z by nia.
  exists st. split_and!; try done; try lia.
  - intros e He. apply (py_slice_elem pool (lb st) (rb st)); [lia | lia |].
    by eapply elem_of_submseteq.
  - intros Hnd. eapply submseteq_NoDup; [done |].
    eapply submseteq_NoDup; [apply py_slice_submseteq | done].
Qed.

(** *** A whole pass *)

Lemma filter_batch_Permutation (pool selected : list nat) :
  NoDup pool → selected ⊆+ pool →
  filter (λ e, e ∉ selected) pool ++ selected ≡ₚ pool.
Proof.
  intros Hnd Hsub. apply NoDup_Permutation; [| done |].
  - apply NoDup_app. split_and!.
    + by apply NoDup_filter.
    + by intros x [? _]%list_elem_of_filter.
    + by eapply submseteq_NoDup.
  - intros x. rewrite elem_of_app, list_elem_of_filter. split.
    + intros [[_ ?] | ?]; [done | by eapply elem_of_submseteq].
    + intros Hx. destruct (decide (x ∈ selected)); [by right | by left].
Qed.

Lemma iter_loop_Ok (self : t) (fuel : nat) (pool acc : list nat) (g : Rng) :
  (1 ≤ _bs self)%Z → (1 ≤ _k self)%Z →
  NoDup pool → length pool ≤ fuel →
  ∃ out g', iter_loop fuel self pool acc g = Some (Ok (out, g'))
            ∧ out ≡ₚ acc ++ pool.
Proof.
  intros Hbs Hk. revert pool acc g.
  induction fuel as [|fuel IH]; intros pool acc g Hnd Hfuel.
  - destruct pool; [| simpl in Hfuel; lia].
    exists acc, g. by rewrite app_nil_r.
  - destruct pool as [|e pool'] eqn:Epool.
    { exists acc, g. by rewrite app_nil_r. }
    rewrite <-Epool in *. assert (pool ≠ []) as Hne by (by rewrite Epool).
    destruct (iter_step_Ok self pool g Hbs Hk Hne)
      as (st & Hst & Hidx & Hlb & Hrb & Hsub & Hlen & Hcur).
    assert (batch st ⊆+ pool) as Hsub'.
    { etrans; [done | apply py_slice_submseteq]. }
    pose proof (filter_batch_Permutation pool (batch st) Hnd Hsub') as Hperm.
    rewrite <-Hcur in Hperm.
    assert (length (cur_ids st) < length pool) as Hshrink.
    { apply Permutation_length in Hperm. rewrite length_app in Hperm.
      assert (1 ≤ _k self * _bs self)%Z by nia. lia. }
    destruct (IH (cur_ids st) (acc ++ batch st) (rng st)) as (out & g' & Hout & Hp).
    { rewrite Hcur. by apply NoDup_filter. }
    { lia. }
    exists out, g'. split.
    + rewrite Epool. simpl. rewrite <-Epool, Hst. done.
    + rewrite Hp, <-Hperm, <-(assoc (++)). f_equiv. apply Permutation_app_comm.
Qed.

Lemma argsort_Permutation (keys : list Z) : argsort keys ≡ₚ seq 0 (length keys).
Proof. apply merge_sort_Permutation. Qed.

(** C1: for a sampler that [__init__] has built, hence with [bs >= 1] and
    [diversity >= 1], a pass of [__iter__] ends within as many passes of
    its loop as the corpus has items and returns a permutation of the
    corpus indices [0 .. corpusSize - 1]: each index once, and as many
    indices as the corpus has items. *)
Theorem iter_permutation (keys : list Z) (bs diversity : Z) (self : t)
    (g : Rng) (fuel : nat) :
  __init__ keys bs diversity = Ok self →
  length keys ≤ fuel →
  ∃ out g', __iter__ fuel self g = Some (Ok (out, g'))
            ∧ out ≡ₚ seq 0 (length keys)
            ∧ NoDup out
            ∧ length out = length keys.
Proof.
  intros Hinit Hfuel.
  destruct (sampler_init_args keys bs diversity self Hinit) as (Hbs & Hk & Ebs & Ek & Eids).
  pose proof (argsort_Permutation keys) as Hids.
  destruct (iter_loop_Ok self fuel (_ids self) [] g) as (out & g' & Hout & Hp).
  - lia.
  - lia.
  - rewrite Eids, Hids. apply NoDup_seq.
  - rewrite Eids, Hids, length_seq. done.
  - simpl in Hp. rewrite Eids, Hids in Hp.
    exists out, g'. split_and!; [done | done | |].
    + rewrite Hp. apply NoDup_seq.
    + by rewrite Hp, length_seq.
Qed.

End SamplerProperties.

(** ** The collator *)

Lemma pad_row_lookup (b : nat) (snt : list Z) (k : nat) :
  length snt ≤ b → k < b → pad_row b snt !! k = Some (default 0%Z (snt !! k)).
Proof.
  intros Hb Hk. unfold pad_row. destruct (decide (k < length snt)) as [Hlt | Hge].
  - rewrite lookup_app_l by done.
    destruct (lookup_lt_is_Some_2 snt k Hlt) as [v ->]. done.
  - rewrite lookup_app_r, lookup_replicate_2 by lia.
    by rewrite lookup_ge_None_2 by lia.
Qed.

Lemma pad_doc_lookup (a b : nat) (text : TText) (j k : nat) :
  fits a b text → j < a → k < b →
  (row ← pad_doc a b text !! j; (row : list Z) !! k)
  = Some (default 0%Z (snt ← text !! j; (snt : list Z) !! k)).
Proof.
  unfold TText in *. intros [Ha Hb] Hj Hk. unfold pad_doc.
  destruct (decide (j < length text)) as [Hlt | Hge].
  - rewrite lookup_app_l by (by rewrite length_fmap).
    rewrite list_lookup_fmap.
    destruct (lookup_lt_is_Some_2 text j Hlt) as [snt Hsnt]. rewrite Hsnt. cbn.
    apply pad_row_lookup; [| done].
    by apply (Forall_lookup_1 (λ snt : list Z, length snt ≤ b) text j snt).
  - rewrite lookup_app_r by (rewrite length_fmap; lia).
    rewrite lookup_replicate_2 by (rewrite length_fmap; lia). cbn.
    rewrite lookup_replicate_2 by done.
    by rewrite (lookup_ge_None_2 text) by lia.
Qed.

Lemma for_in_cons {A S} (body : S → A → result S) (x : A) (l : list A) (s : S) :
  for_in body (x :: l) s = body s x ≫= for_in body l.
Proof. done. Qed.

Lemma t3_assign_prefix_row (n a b : nat) (dt : dtype)
    (pre post : list (list (list Z))) (above below : list (list Z))
    (row snt : list Z) (j : nat) :
  length pre < n → length above = j → j < a → length snt ≤ b → Forall in_int64 snt →
  t3_assign_prefix
    {| t3_shape := (n, a, b); t3_dtype := dt;
       t3_data := pre ++ (above ++ row :: below) :: post |}
    (length pre) j snt
  = Ok {| t3_shape := (n, a, b); t3_dtype := dt;
          t3_data := pre ++ (above ++ (snt ++ drop (length snt) row) :: below) :: post |}.
Proof.
  intros Hn <- Ha Hb Hint. unfold t3_assign_prefix, torch_tensor.
  rewrite (decide_True (P := Forall in_int64 snt)) by done. cbn.
  rewrite decide_True by done. rewrite Nat.min_l by done. rewrite decide_True by done.
  do 2 f_equal.
  replace (length pre) with (length pre + 0) at 1 by lia.
  rewrite alter_app_r. cbn. do 2 f_equal.
  replace (length above) with (length above + 0) at 1 by lia.
  by rewrite alter_app_r.
Qed.

Lemma collate_sentences_from (n a b : nat) (dt : dtype)
    (pre post : list (list (list Z))) (done rest : TText) :
  length pre < n →
  length done + length rest ≤ a →
  Forall (λ snt, length snt ≤ b) rest →
  ids_int64 rest →
  for_in (λ T '(j, snt), t3_assign_prefix T (length pre) j snt)
         (enumerate_from (length done) rest)
         {| t3_shape := (n, a, b); t3_dtype := dt;
            t3_data := pre ++ ((pad_row b <$> done)
                               ++ replicate (a - length done) (replicate b 0%Z)) :: post |}
  = Ok {| t3_shape := (n, a, b); t3_dtype := dt;
          t3_data := pre ++ pad_doc a b (done ++ rest) :: post |}.
Proof.
  intros Hn. revert done. induction rest as [|snt rest IH]; intros done Ha Hb Hint.
  - simpl. by rewrite app_nil_r.
  - apply Forall_cons in Hb as [Hsnt Hb]. apply Forall_cons in Hint as [Hsnt64 Hint].
    simpl in Ha.
    simpl enumerate_from. rewrite for_in_cons. cbv beta iota.
    destruct (a - length done) as [|rows] eqn:Hrows; [lia |]. simpl replicate.
    rewrite t3_assign_prefix_row by (rewrite ?length_fmap; done || lia).
    rewrite drop_replicate. fold (pad_row b snt). cbn [mbind result_bind].
    specialize (IH (done ++ [snt])).
    rewrite length_app, fmap_app in IH. simpl in IH.
    replace (length done + 1) with (S (length done)) in IH by lia.
    replace (a - S (length done)) with rows in IH by lia.
    rewrite <-!(assoc (++)) in IH. simpl in IH.
    by rewrite IH by (done || lia).
Qed.

Lemma collate_sentences_zero (n a b : nat) (dt : dtype)
    (pre post : list (list (list Z))) (text : TText) (i : nat) :
  length pre = i → i < n → fits a b text → ids_int64 text →
  collate_sentences i text
    {| t3_shape := (n, a, b); t3_dtype := dt;
       t3_data := pre ++ replicate a (replicate b 0%Z) :: post |}
  = Ok {| t3_shape := (n, a, b); t3_dtype := dt;
          t3_data := pre ++ pad_doc a b text :: post |}.
Proof.
  intros <- Hn [Ha Hb] Hint.
  pose proof (collate_sentences_from n a b dt pre post [] text Hn Ha Hb Hint) as H.
  simpl in H. by rewrite Nat.sub_0_r in H.
Qed.

Lemma t2_fill_row_at (n m : nat) (dt : dtype) (above below : list (list Z))
    (row : list Z) (v : Z) (i : nat) :
  length above = i → i < n →
  t2_fill_row {| t2_shape := (n, m); t2_dtype := dt; t2_data := above ++ row :: below |} i v
  = Ok {| t2_shape := (n, m); t2_dtype := dt;
          t2_data := above ++ replicate m v :: below |}.
Proof.
  intros <- Hn. unfold t2_fill_row. cbn. rewrite decide_True by done.
  do 2 f_equal. rewrite insert_app_r_alt by done. by rewrite Nat.sub_diag.
Qed.

Lemma collate_item_at (n a b : nat) (dt dt' : dtype)
    (pre post : list (list (list Z))) (above below : list (list Z))
    (row : list Z) (i : nat) (item : TItem) :
  length pre = i → length above = i → i < n → fits a b (txt item) →
  ids_int64 (txt item) →
  collate_item
    ({| t3_shape := (n, a, b); t3_dtype := dt;
        t3_data := pre ++ replicate a (replicate b 0%Z) :: post |},
     {| t2_shape := (n, 1); t2_dtype := dt'; t2_data := above ++ row :: below |})
    (i, item)
  = Ok ({| t3_shape := (n, a, b); t3_dtype := dt;
           t3_data := pre ++ pad_doc a b (txt item) :: post |},
        {| t2_shape := (n, 1); t2_dtype := dt';
           t2_data := above ++ [label item] :: below |}).
Proof.
  intros Hpre Habove Hn Hfits Hint. unfold collate_item.
  rewrite t2_fill_row_at by done. cbn [mbind result_bind].
  by rewrite collate_sentences_zero by done.
Qed.

Lemma collate_items_from (n a b : nat) (done rest : list TItem) :
  length done + length rest = n →
  Forall (λ item, fits a b (txt item)) rest →
  Forall (λ item, ids_int64 (txt item)) rest →
  for_in collate_item (enumerate_from (length done) rest)
    ({| t3_shape := (n, a, b); t3_dtype := int64;
        t3_data := ((λ item, pad_doc a b (txt item)) <$> done)
                   ++ replicate (n - length done) (replicate a (replicate b 0%Z)) |},
     {| t2_shape := (n, 1); t2_dtype := float32;
        t2_data := ((λ item, [label item]) <$> done)
                   ++ replicate (n - length done) [0%Z] |})
  = Ok ({| t3_shape := (n, a, b); t3_dtype := int64;
           t3_data := (λ item, pad_doc a b (txt item)) <$> (done ++ rest) |},
        {| t2_shape := (n, 1); t2_dtype := float32;
           t2_data := (λ item, [label item]) <$> (done ++ rest) |}).
Proof.
  revert done. induction rest as [|item rest IH]; intros done Hn Hfits Hint.
  - simpl in *. replace (n - length done) with 0 by lia. simpl.
    by rewrite !app_nil_r.
  - apply Forall_cons in Hfits as [Hitem Hfits].
    apply Forall_cons in Hint as [Hitem64 Hint]. simpl in Hn.
    simpl enumerate_from. rewrite for_in_cons.
    destruct (n - length done) as [|m] eqn:Hm; [lia |]. simpl replicate.
    rewrite collate_item_at by (rewrite ?length_fmap; done || lia).
    cbn [mbind result_bind].
    specialize (IH (done ++ [item])).
    rewrite length_app, !fmap_app in IH. simpl in IH.
    replace (length done + 1) with (S (length done)) in IH by lia.
    replace (n - S (length done)) with m in IH by lia.
    rewrite <-!(assoc (++)) in IH. simpl in IH.
    rewrite IH by (done || lia). by rewrite !fmap_app.
Qed.

Lemma collate_docs_Ok (batch : list TItem) (max_txt max_snt : nat) :
  py_max (snt_len <$> batch) = Ok (Z.of_nat max_snt) →
  py_max (txt_len <$> batch) = Ok (Z.of_nat max_txt) →
  Forall (λ item, fits max_txt max_snt (txt item)) batch →
  Forall (λ item, ids_int64 (txt item)) batch →
  collate_docs batch
  = Ok {| features :=
            {| t3_shape := (length batch, max_txt, max_snt); t3_dtype := int64;
               t3_data := (λ item, pad_doc max_txt max_snt (txt item)) <$> batch |};
          targets :=
            {| t2_shape := (length batch, 1); t2_dtype := float32;
               t2_data := (λ item, [label item]) <$> batch |} |}.
Proof.
  intros Hsnt Htxt Hfits Hint. unfold collate_docs. rewrite Hsnt, Htxt. cbn [mbind result_bind].
  unfold zeros2, zeros3.
  assert ((Z.of_nat (length batch) <? 0)%Z = false) as -> by (apply Z.ltb_ge; lia).
  assert ((Z.of_nat max_txt <? 0)%Z = false) as -> by (apply Z.ltb_ge; lia).
  assert ((Z.of_nat max_snt <? 0)%Z = false) as -> by (apply Z.ltb_ge; lia).
  cbn [orb Z.ltb Z.compare mbind result_bind]. rewrite !Nat2Z.id.
  change (Z.to_nat 1) with 1. unfold enumerate.
  pose proof (collate_items_from (length batch) max_txt max_snt [] batch) as H.
  simpl in H. rewrite Nat.sub_0_r in H.
  change (replicate 1 0%Z) with [0%Z]. by rewrite H.
Qed.

Lemma corpus_item_nonneg (item : TItem) :
  corpus_item item → (0 ≤ txt_len item)%Z ∧ (0 ≤ snt_len item)%Z.
Proof.
  intros (_ & -> & Hmax & _). split; [lia |].
  apply py_max_elem, list_elem_of_fmap in Hmax as (snt & -> & _). lia.
Qed.

Lemma corpus_item_fits (item : TItem) (max_txt max_snt : nat) :
  corpus_item item →
  (txt_len item ≤ Z.of_nat max_txt)%Z → (snt_len item ≤ Z.of_nat max_snt)%Z →
  fits max_txt max_snt (txt item).
Proof.
  intros (_ & Hlen & Hmax & _) Htxt Hsnt. split; [lia |].
  apply py_max_ge in Hmax. rewrite Forall_fmap in Hmax.
  eapply Forall_impl; [exact Hmax |]. simpl. intros snt ?. lia.
Qed.

(** C2, amended: for a batch of [N >= 1] corpus items whose ids are all
    within [int64], [collate_docs] returns a feature tensor of shape
    [[N, max_txt, max_snt]], the two maxima being those of [txt_len] and of
    [snt_len] over the batch, and a [float32] label tensor of shape
    [[N, 1]].  The cell [[i, j, k]] holds the [k]-th
    id of sentence [j] of item [i] where the item has one, and 0 everywhere
    else; row [i] of the label tensor holds the label of item [i]. *)
Theorem collate_docs_padding (batch : list TItem) :
  batch ≠ [] → Forall corpus_item batch →
  Forall (λ item, ids_int64 (txt item)) batch →
  ∃ (max_txt max_snt : nat) (out : Batch),
    py_max (txt_len <$> batch) = Ok (Z.of_nat max_txt)
    ∧ py_max (snt_len <$> batch) = Ok (Z.of_nat max_snt)
    ∧ collate_docs batch = Ok out
    ∧ t3_shape (features out) = (length batch, max_txt, max_snt)
    ∧ t3_dtype (features out) = int64
    ∧ t2_shape (targets out) = (length batch, 1)
    ∧ t2_dtype (targets out) = float32
    ∧ (∀ i j k, i < length batch → j < max_txt → k < max_snt →
         t3_get (features out) i j k = Some (expected_cell batch i j k))
    ∧ (∀ i item j snt k v,
         batch !! i = Some item → txt item !! j = Some snt → snt !! k = Some v →
         j < max_txt ∧ k < max_snt ∧ t3_get (features out) i j k = Some v)
    ∧ (∀ i item j k,
         batch !! i = Some item → j < max_txt → k < max_snt →
         (∀ snt, txt item !! j = Some snt → length snt ≤ k) →
         t3_get (features out) i j k = Some 0%Z)
    ∧ (∀ i item, batch !! i = Some item → t2_get (targets out) i 0 = Some (label item)).
Proof.
  intros Hne Hwf Hint.
  destruct (py_max_Ok (txt_len <$> batch)) as [mt Hmt]; [by intros ?%fmap_nil_inv |].
  destruct (py_max_Ok (snt_len <$> batch)) as [ms Hms]; [by intros ?%fmap_nil_inv |].
  assert (0 ≤ mt)%Z as Hmt0.
  { apply py_max_elem, list_elem_of_fmap in Hmt as (item & -> & Hitem).
    by apply corpus_item_nonneg, (proj1 (Forall_forall _ _) Hwf). }
  assert (0 ≤ ms)%Z as Hms0.
  { apply py_max_elem, list_elem_of_fmap in Hms as (item & -> & Hitem).
    by apply corpus_item_nonneg, (proj1 (Forall_forall _ _) Hwf). }
  rewrite <-(Z2Nat.id mt) in Hmt by done. rewrite <-(Z2Nat.id ms) in Hms by done.
  set (max_txt := Z.to_nat mt) in *. set (max_snt := Z.to_nat ms) in *.
  assert (Forall (λ item, fits max_txt max_snt (txt item)) batch) as Hfits.
  { apply Forall_forall. intros item Hitem.
    apply corpus_item_fits; [by apply (proj1 (Forall_forall _ _) Hwf) | |].
    - apply py_max_ge in Hmt. rewrite Forall_fmap in Hmt.
      by apply (proj1 (Forall_forall _ _) Hmt).
    - apply py_max_ge in Hms. rewrite Forall_fmap in Hms.
      by apply (proj1 (Forall_forall _ _) Hms). }
  pose proof (collate_docs_Ok batch max_txt max_snt Hms Hmt Hfits Hint) as Hout.
  assert (∀ i j k, i < length batch → j < max_txt → k < max_snt →
            t3_get (features
              {| features :=
                   {| t3_shape := (length batch, max_txt, max_snt); t3_dtype := int64;
                      t3_data := (λ item, pad_doc max_txt max_snt (txt item)) <$> batch |};
                 targets :=
                   {| t2_shape := (length batch, 1); t2_dtype := float32;
                      t2_data := (λ item, [label item]) <$> batch |} |}) i j k
            = Some (expected_cell batch i j k)) as Hcell.
  { intros i j k Hi Hj Hk. unfold t3_get, expected_cell. cbn [features t3_data].
    rewrite list_lookup_fmap.
    destruct (lookup_lt_is_Some_2 batch i Hi) as [item Hitem]. rewrite Hitem. cbn.
    apply pad_doc_lookup; [| done | done].
    by apply (Forall_lookup_1 _ batch i item Hfits). }
  eexists max_txt, max_snt, _. split_and!; [done | done | exact Hout | done .. | | | |].
  - exact Hcell.
  - intros i item j snt k v Hitem Hsnt Hv.
    destruct (Forall_lookup_1 _ batch i item Hfits Hitem) as [Hrows Hcols].
    pose proof (lookup_lt_Some _ _ _ Hitem). pose proof (lookup_lt_Some _ _ _ Hsnt).
    pose proof (lookup_lt_Some _ _ _ Hv).
    pose proof (Forall_lookup_1 _ _ _ _ Hcols Hsnt). simpl in *.
    assert (j < max_txt) by lia. assert (k < max_snt) by lia.
    split_and!; [done | done |]. rewrite Hcell by done.
    unfold expected_cell. rewrite Hitem. cbn. rewrite Hsnt. cbn. by rewrite Hv.
  - intros i item j k Hitem Hj Hk Hout_of.
    pose proof (lookup_lt_Some _ _ _ Hitem). rewrite Hcell by done.
    unfold expected_cell. rewrite Hitem. cbn.
    destruct (txt item !! j) as [snt|] eqn:Hsnt; cbn; [| done].
    by rewrite lookup_ge_None_2 by (by apply Hout_of).
  - intros i item Hitem. unfold t2_get. cbn [targets t2_data].
    rewrite list_lookup_fmap, Hitem. done.
Qed.

(** * The theorems at the example inputs *)

(** ** The sampler *)

Lemma iter_permutation_witness :
  SimilarRandSampler.__init__ Examples.keys 2 1 = Ok Examples.sampler
  ∧ length Examples.keys ≤ 8
  ∧ ∃ out g',
      SimilarRandSampler.__iter__ 8 Examples.sampler Examples.draws = Some (Ok (out, g'))
      ∧ out ≡ₚ seq 0 (length Examples.keys)
      ∧ NoDup out
      ∧ length out = length Examples.keys.
Proof.
  split; [reflexivity |]. split; [simpl; lia |].
  apply (iter_permutation Examples.keys 2 1 Examples.sampler Examples.draws 8).
  - reflexivity.
  - simpl. lia.
Defined.

Lemma iter_step_window_witness :
  SimilarRandSampler.__init__ Examples.keys 2 1 = Ok Examples.sampler
  ∧ argsort Examples.keys ≠ []
  ∧ ∃ st,
      SimilarRandSampler.iter_step Examples.sampler (argsort Examples.keys) Examples.draws
        = Ok st
      ∧ SimilarRandSampler.idx st < length (argsort Examples.keys)
      ∧ Z.of_nat (length (SimilarRandSampler.batch st))
        = (2 `min` (SimilarRandSampler.rb st - SimilarRandSampler.lb st))%Z.
Proof.
  split; [reflexivity |]. split; [vm_compute; discriminate |].
  destruct (iter_step_window Examples.keys 2 1 Examples.sampler (argsort Examples.keys)
              Examples.draws) as (st & Hst & Hidx & _ & _ & _ & _ & _ & _ & Hlen & _).
  - reflexivity.
  - vm_compute. discriminate.
  - exists st. split; [exact Hst |]. split; [exact Hidx | exact Hlen].
Defined.

(** ** The collator *)

(** C2 as stated fails for an id beyond [int64]: the corpus loaded with a
    vocabulary that gives "good" the id [2^63] holds a corpus item whose
    sentence [torch.tensor] refuses, and on the batch of that item
    [collate_docs] raises instead of returning the two tensors. *)
Lemma collate_docs_wide_id_counterexample :
  Plain.__init__ Examples.fs ["data"] Examples.vocab_wide SNT_CLIP TXT_CLIP
    = Ok Examples.corpus_wide
  ∧ ImdbReviewsDataset.__getitem__ Examples.corpus_wide 0 = Ok Examples.item_wide
  ∧ [Examples.item_wide] ≠ []
  ∧ Forall corpus_item [Examples.item_wide]
  ∧ collate_docs [Examples.item_wide] = Raise RuntimeError_tensor
  ∧ ¬ ∃ out, collate_docs [Examples.item_wide] = Ok out.
Proof.
  split; [reflexivity |]. split; [reflexivity |]. split; [discriminate |].
  split.
  { constructor; [| constructor].
    split; [discriminate | split; [reflexivity | split; [reflexivity | simpl; lia]]]. }
  assert (collate_docs [Examples.item_wide] = Raise RuntimeError_tensor) as Hraise
    by reflexivity.
  split; [exact Hraise |]. intros [out Hout]. rewrite Hraise in Hout. discriminate.
Qed.

Lemma collate_docs_padding_witness :
  Examples.batch ≠ []
  ∧ Forall corpus_item Examples.batch
  ∧ Forall (λ item, ids_int64 (txt item)) Examples.batch
  ∧ ∃ out,
      collate_docs Examples.batch = Ok out
      ∧ t3_shape (features out) = (2, 3, 4)
      ∧ t2_shape (targets out) = (2, 1).
Proof.
  assert (Examples.batch ≠ []) as Hne by (vm_compute; discriminate).
  assert (Forall corpus_item Examples.batch) as Hwf.
  { constructor; [| constructor; [| constructor]];
      (split; [discriminate | split; [reflexivity | split; [reflexivity | simpl; lia]]]). }
  assert (Forall (λ item, ids_int64 (txt item)) Examples.batch) as Hint
    by (apply (bool_decide_unpack _); vm_compute; exact I).
  split; [exact Hne |]. split; [exact Hwf |]. split; [exact Hint |].
  destruct (collate_docs_padding Examples.batch Hne Hwf Hint)
    as (max_txt & max_snt & out & Htxt & Hsnt & Hout & Hshape & _ & Hshape' & _).
  exists out. split; [exact Hout |].
  vm_compute in Htxt, Hsnt.
  injection Htxt as Htxt. injection Hsnt as Hsnt.
  apply (Nat2Z.inj 3) in Htxt. apply (Nat2Z.inj 4) in Hsnt.
  rewrite <-Htxt, <-Hsnt in Hshape. split; [exact Hshape | exact Hshape'].
Defined.

(** ** The tokenizer *)

(** C3 as stated fails for a negative clip: with [snt_clip = -1] the slice
    [[:-1]] drops the last id of each sentence, and the text "good bad"
    gives a document whose one sentence has one id, more than [snt_clip]. *)
Lemma tokenize_negative_clip_counterexample :
  Plain.tokenize_plane_text
    (ImdbReviewsDataset.new_dataset ["data"] Examples.vocab (-1) TXT_CLIP) "good bad"
  = Ok ([[1%Z]], 1%Z, 1%Z)
  ∧ ¬ Forall (λ snt : list Z, (Z.of_nat (length snt) ≤ -1)%Z) [[1%Z]].
Proof.
  split; [reflexivity |]. intros H. apply Forall_cons in H as [H _]. simpl in H. lia.
Qed.

Lemma tokenize_clip_bounds_witness :
  (0 ≤ TXT_CLIP)%Z
  ∧ (Z.of_nat (length (ImdbReviewsDataset.clipped_text Plain.tokenize_s Plain.tokenize_w
        (ImdbReviewsDataset.new_dataset ["data"] Examples.vocab SNT_CLIP TXT_CLIP)
        "good bad")) ≤ TXT_CLIP)%Z.
Proof.
  split; [unfold TXT_CLIP; lia |].
  apply (tokenize_clip_bounds Plain.str_lower Plain.html_sub Plain.tokenize_s
           Plain.tokenize_w
           (ImdbReviewsDataset.new_dataset ["data"] Examples.vocab SNT_CLIP TXT_CLIP)
           "good bad").
  simpl. unfold TXT_CLIP. lia.
Defined.

Lemma empty_document_aborts_load_witness :
  ImdbReviewsDataset.clipped_text Plain.tokenize_s Plain.tokenize_w
    (ImdbReviewsDataset.new_dataset ["data"] Examples.vocab SNT_CLIP 0) "good bad" = []
  ∧ Plain.tokenize_plane_text
      (ImdbReviewsDataset.new_dataset ["data"] Examples.vocab SNT_CLIP 0) "good bad"
    = Raise ValueError_max_empty.
Proof.
  split; [reflexivity |].
  apply (empty_document_aborts_load Plain.str_lower Plain.html_sub Plain.tokenize_s
           Plain.tokenize_w
           (ImdbReviewsDataset.new_dataset ["data"] Examples.vocab SNT_CLIP 0) "good bad").
  reflexivity.
Defined.

(** ** The vocabulary *)

(** C4 as stated fails for a file with a repeated line: of the two lines
    of the file, both "good", the vocabulary keeps one entry, with the id
    2, and no word has the id 1. *)
Lemma vocab_duplicate_line_counterexample :
  Plain.splitlines ("good" +:+ Examples.LF +:+ "good" +:+ Examples.LF) = ["good"; "good"]
  ∧ Plain.get_imdb_vocab Examples.fs_duplicate ["data"] = Ok {[ "good" := 2%Z ]}
  ∧ ∀ w, ({[ "good" := 2%Z ]} : gmap string Z) !! w ≠ Some 1%Z.
Proof.
  split; [reflexivity |]. split; [reflexivity |].
  intros w. destruct (decide (w = "good")) as [-> | Hne].
  - by rewrite lookup_singleton_eq.
  - by rewrite lookup_singleton_ne.
Qed.

Lemma vocab_ids_witness :
  fs_files Examples.fs !! (["data"] </> "imdb.vocab")
    = Some ("good" +:+ Examples.LF +:+ "bad" +:+ Examples.LF)
  ∧ ∃ vocab,
      Plain.get_imdb_vocab Examples.fs ["data"] = Ok vocab
      ∧ ∀ w, vocab !! w ≠ Some 0%Z.
Proof.
  split; [reflexivity |].
  destruct (vocab_ids Plain.splitlines Examples.fs ["data"]
              ("good" +:+ Examples.LF +:+ "bad" +:+ Examples.LF))
    as (vocab & Hvocab & _ & Hzero & _).
  - reflexivity.
  - exists vocab. split; [exact Hvocab | exact Hzero].
Defined.

(** ** The corpus *)

(** C7 as stated fails for the negative indices from [-L] on: on the
    corpus of one document, index [-1] lies outside [[0, 1)] and
    [__getitem__] returns the document. *)
Lemma getitem_negative_index_counterexample :
  Plain.__init__ Examples.fs ["data"] Examples.vocab SNT_CLIP TXT_CLIP = Ok Examples.corpus
  ∧ ImdbReviewsDataset.__len__ Examples.corpus = 1
  ∧ ImdbReviewsDataset.__getitem__ Examples.corpus (-1)
    = Ok {| txt := [[1; 2; 1]]%Z; label := 0; txt_len := 1; snt_len := 3 |}.
Proof. split; [reflexivity |]. split; reflexivity. Qed.

Lemma getitem_index_range_witness :
  Plain.__init__ Examples.fs ["data"] Examples.vocab SNT_CLIP TXT_CLIP = Ok Examples.corpus
  ∧ ImdbReviewsDataset.__getitem__ Examples.corpus 1 = Raise IndexError_list
  ∧ ImdbReviewsDataset.__getitem__ Examples.corpus (-1)
    = ImdbReviewsDataset.__getitem__ Examples.corpus 0.
Proof.
  assert (Plain.__init__ Examples.fs ["data"] Examples.vocab SNT_CLIP TXT_CLIP
          = Ok Examples.corpus) as Hload by reflexivity.
  split; [exact Hload |]. split.
  - destruct (getitem_index_range Plain.str_lower Plain.html_sub Plain.tokenize_s
                Plain.tokenize_w Examples.fs ["data"] Examples.vocab SNT_CLIP TXT_CLIP
                Examples.corpus 1 Hload) as (Houtside & _ & _).
    apply Houtside. right. vm_compute. discriminate.
  - destruct (getitem_index_range Plain.str_lower Plain.html_sub Plain.tokenize_s
                Plain.tokenize_w Examples.fs ["data"] Examples.vocab SNT_CLIP TXT_CLIP
                Examples.corpus (-1) Hload) as (_ & _ & Hwrap).
    apply Hwrap. split; vm_compute; [discriminate | reflexivity].
Defined.

(** C8 as stated fails where no directory exists: the load from a root
    that is absent, with its [neg] and [pos], succeeds, and the corpus has
    no document. *)
Lemma load_absent_root_counterexample :
  fs_dirs Examples.fs_empty !! ["data"] = None
  ∧ fs_dirs Examples.fs_empty !! (["data"] </> "neg") = None
  ∧ fs_dirs Examples.fs_empty !! (["data"] </> "pos") = None
  ∧ Plain.__init__ Examples.fs_empty ["data"] Examples.vocab SNT_CLIP TXT_CLIP
    = Ok (ImdbReviewsDataset.new_dataset ["data"] Examples.vocab SNT_CLIP TXT_CLIP)
  ∧ ImdbReviewsDataset.__len__
      (ImdbReviewsDataset.new_dataset ["data"] Examples.vocab SNT_CLIP TXT_CLIP) = 0.
Proof. repeat split; reflexivity. Qed.

Lemma load_absent_directory_witness :
  fs_dirs Examples.fs !! (["data"] </> "pos") = None
  ∧ ImdbReviewsDataset._load_data Plain.str_lower Plain.html_sub Plain.tokenize_s
      Plain.tokenize_w Examples.fs
      (ImdbReviewsDataset.new_dataset ["data"] Examples.vocab SNT_CLIP TXT_CLIP)
    = ImdbReviewsDataset._load_data Plain.str_lower Plain.html_sub Plain.tokenize_s
        Plain.tokenize_w (mkdir (["data"] </> "pos") Examples.fs)
        (ImdbReviewsDataset.new_dataset ["data"] Examples.vocab SNT_CLIP TXT_CLIP).
Proof.
  split; [reflexivity |].
  apply (load_absent_directory Plain.str_lower Plain.html_sub Plain.tokenize_s
           Plain.tokenize_w Examples.fs
           (ImdbReviewsDataset.new_dataset ["data"] Examples.vocab SNT_CLIP TXT_CLIP)).
  reflexivity.
Defined.

(** * Further properties *)

(** ** What a loaded corpus holds *)

Section CorpusLayout.
Variable str_lower html_sub : string → string.
Variable tokenize_s tokenize_w : string → list string.

Local Abbreviation clipped_text :=
  (ImdbReviewsDataset.clipped_text tokenize_s tokenize_w).
Local Abbreviation load_file :=
  (ImdbReviewsDataset.load_file str_lower html_sub tokenize_s tokenize_w).
Local Abbreviation __init__ :=
  (ImdbReviewsDataset.__init__ str_lower html_sub tokenize_s tokenize_w).
Local Abbreviation new_dataset := ImdbReviewsDataset.new_dataset.

(** The document that the load makes of the file at [f], if it can be
    read. *)
Local Abbreviation document_of fs self f text :=
  (∃ content, fs_files fs !! f = Some content
              ∧ text = clipped_text self (html_sub (str_lower content))).

Lemma load_file_label fs self f self' :
  load_file fs self f = Ok self' →
  ImdbReviewsDataset._labels self' = ImdbReviewsDataset._labels self ++ [file_label f].
Proof.
  unfold ImdbReviewsDataset.load_file. intros (content & _ & H)%bind_Ok.
  apply bind_Ok in H as ([[text m] n] & _ & [= <-]). done.
Qed.

Lemma load_files_layout fs files self self' :
  for_in (load_file fs) files self = Ok self' →
  ImdbReviewsDataset._vocab self' = ImdbReviewsDataset._vocab self
  ∧ ImdbReviewsDataset._snt_clip self' = ImdbReviewsDataset._snt_clip self
  ∧ ImdbReviewsDataset._txt_clip self' = ImdbReviewsDataset._txt_clip self
  ∧ ImdbReviewsDataset._paths self' = ImdbReviewsDataset._paths self ++ files
  ∧ ImdbReviewsDataset._labels self'
    = ImdbReviewsDataset._labels self ++ (file_label <$> files)
  ∧ ∃ items,
      Forall corpus_item items
      ∧ Forall2 (λ f item, document_of fs self f (txt item)) files items
      ∧ ImdbReviewsDataset._texts self' = ImdbReviewsDataset._texts self ++ (txt <$> items)
      ∧ ImdbReviewsDataset._txt_lens self'
        = ImdbReviewsDataset._txt_lens self ++ (txt_len <$> items)
      ∧ ImdbReviewsDataset._snt_lens self'
        = ImdbReviewsDataset._snt_lens self ++ (snt_len <$> items).
Proof.
  revert self. induction files as [|f files IH]; intros self; simpl.
  - intros [= <-]. rewrite !app_nil_r. split_and!; try done.
    exists []. rewrite !app_nil_r. split_and!; done || constructor.
  - intros (self1 & Hf & Hrest)%bind_Ok.
    pose proof (load_file_label _ _ _ _ Hf) as Hlabel.
    apply load_file_Ok in Hf
      as (content & item & Hread & Htxt & Hitem & (_ & Hv & Hs & Ht) & E0 & E1 & _ & E3 & E4).
    apply IH in Hrest
      as (Hv' & Hs' & Ht' & F0 & F2 & items & Hwf & Hdocs & F1 & F3 & F4).
    split_and!; try congruence.
    + by rewrite F0, E0, <-(assoc (++)).
    + by rewrite F2, Hlabel, <-(assoc (++)).
    + exists (item :: items). split_and!.
      * by constructor.
      * constructor; [by exists content |].
        eapply Forall2_impl; [exact Hdocs |]. simpl.
        intros f' item' (content' & ? & ->). exists content'. split; [done |].
        unfold ImdbReviewsDataset.clipped_text, ImdbReviewsDataset.sentence_ids.
        by rewrite Hv, Hs, Ht.
      * by rewrite F1, E1, <-(assoc (++)).
      * by rewrite F3, E3, <-(assoc (++)).
      * by rewrite F4, E4, <-(assoc (++)).
Qed.

Lemma parent_name_join (dir : path) (d name : string) :
  parent_name (dir </> d </> name) = d.
Proof. unfold parent_name, path_join. by rewrite !reverse_snoc. Qed.

Lemma glob_txt_labels fs dir d :
  file_label <$> glob_txt fs (dir </> d)
  = replicate (length (glob_txt fs (dir </> d)))
              (if String.eqb d "pos" then 1%Z else 0%Z).
Proof.
  unfold glob_txt. destruct (fs_dirs fs !! _) as [names|]; [| done].
  rewrite length_fmap. generalize (filter (λ name, matches_pattern name = true) names).
  intros l. induction l as [|name l IH]; [done |].
  rewrite !fmap_cons. cbn [length replicate]. rewrite IH. f_equal.
  unfold file_label. by rewrite parent_name_join.
Qed.

(** X1: a loaded corpus lists the files of [neg] that match [*_*.txt], in
    the order of the directory, and then those of [pos]; the reviews of
    [neg] have the label 0 and those of [pos] the label 1; the corpus has
    one document for each file, and keeps the vocabulary and the clips it
    was built with. *)
Theorem load_paths_and_labels fs path_to_data vocab snt_clip txt_clip ds :
  __init__ fs path_to_data vocab snt_clip txt_clip = Ok ds →
  ImdbReviewsDataset._paths ds
    = glob_txt fs (path_to_data </> "neg") ++ glob_txt fs (path_to_data </> "pos")
  ∧ ImdbReviewsDataset._labels ds
    = replicate (length (glob_txt fs (path_to_data </> "neg"))) 0%Z
      ++ replicate (length (glob_txt fs (path_to_data </> "pos"))) 1%Z
  ∧ ImdbReviewsDataset.__len__ ds
    = length (glob_txt fs (path_to_data </> "neg"))
      + length (glob_txt fs (path_to_data </> "pos"))
  ∧ ImdbReviewsDataset._vocab ds = vocab
  ∧ ImdbReviewsDataset._snt_clip ds = snt_clip
  ∧ ImdbReviewsDataset._txt_clip ds = txt_clip.
Proof.
  unfold ImdbReviewsDataset.__init__, ImdbReviewsDataset._load_data. intros H.
  apply load_files_layout in H
    as (Hv & Hs & Ht & Hpaths & Hlabels & items & _ & Hdocs & Htexts & _).
  simpl in *. unfold ImdbReviewsDataset.data_files in *.
  split_and!; try done.
  - by rewrite Hlabels, fmap_app, !glob_txt_labels.
  - unfold ImdbReviewsDataset.__len__. rewrite Htexts, length_fmap.
    by rewrite <-(Forall2_length _ _ _ Hdocs), length_app.
Qed.

(** X2: in a loaded corpus the document at position [i] is the
    tokenization of the file at position [i] of its paths, [txt_lens] holds
    its number of sentences, which is at least 1, and the corpus holds the
    length of its longest sentence. *)
Theorem load_documents fs path_to_data vocab snt_clip txt_clip ds (i : nat) f :
  __init__ fs path_to_data vocab snt_clip txt_clip = Ok ds →
  ImdbReviewsDataset._paths ds !! i = Some f →
  ∃ content text m,
    fs_files fs !! f = Some content
    ∧ text = clipped_text (new_dataset path_to_data vocab snt_clip txt_clip)
               (html_sub (str_lower content))
    ∧ ImdbReviewsDataset._texts ds !! i = Some text
    ∧ txt_lens ds !! i = Some (Z.of_nat (length text))
    ∧ 1 ≤ length text
    ∧ ImdbReviewsDataset._snt_lens ds !! i = Some m
    ∧ py_max ((λ snt, Z.of_nat (length snt)) <$> text) = Ok m
    ∧ ImdbReviewsDataset._labels ds !! i = Some (file_label f).
Proof.
  unfold ImdbReviewsDataset.__init__, ImdbReviewsDataset._load_data. intros H Hf.
  apply load_files_layout in H
    as (_ & _ & _ & Hpaths & Hlabels & items & Hwf & Hdocs & Htexts & Htl & Hsl).
  simpl in *. rewrite Hpaths in Hf.
  destruct (Forall2_lookup_l _ _ _ _ _ Hdocs Hf) as (item & Hitem & content & Hread & Htxt).
  destruct (Forall_lookup_1 _ _ _ _ Hwf Hitem) as (Hne & Hlen & Hmax & _).
  exists content, (txt item), (snt_len item). unfold txt_lens.
  rewrite Htexts, Htl, Hsl, Hlabels, !list_lookup_fmap, Hitem, Hf. simpl.
  split_and!; try done.
  - by rewrite Hlen.
  - destruct (txt item); [done | simpl; lia].
Qed.

(** A file of which the load makes a document, and a file at which the
    load raises [e]: one that cannot be read, whatever is raised there, or
    one without a sentence. *)
Local Abbreviation loads fs self f :=
  (∃ content, fs_files fs !! f = Some content
              ∧ clipped_text self (html_sub (str_lower content)) ≠ []).

Local Abbreviation fails fs self f e :=
  (fs_files fs !! f = None
   ∨ (∃ content, fs_files fs !! f = Some content
                 ∧ clipped_text self (html_sub (str_lower content)) = []
                 ∧ e = ValueError_max_empty)).

Local Abbreviation same_config self self' :=
  (ImdbReviewsDataset._path_to_data self' = ImdbReviewsDataset._path_to_data self
   ∧ ImdbReviewsDataset._vocab self' = ImdbReviewsDataset._vocab self
   ∧ ImdbReviewsDataset._snt_clip self' = ImdbReviewsDataset._snt_clip self
   ∧ ImdbReviewsDataset._txt_clip self' = ImdbReviewsDataset._txt_clip self).

Lemma load_files_result fs files self0 self :
  same_config self0 self →
  match for_in (load_file fs) files self with
  | Ok _ => Forall (λ f, loads fs self0 f) files
  | Raise e =>
      ∃ i f, files !! i = Some f ∧ fails fs self0 f e
             ∧ Forall (λ f', loads fs self0 f') (take i files)
  end.
Proof.
  revert self. induction files as [|f files IH]; intros self Hcfg; simpl; [constructor |].
  destruct (load_file fs self f) as [self1|e] eqn:Hf; simpl.
  - apply load_file_Ok in Hf as (content & item & Hread & Htxt & (Hne & _) & Hcfg1 & _).
    assert (loads fs self0 f) as Hgood.
    { exists content. split; [done |].
      rewrite <-(clipped_text_config tokenize_s tokenize_w self0 self) by done. congruence. }
    assert (same_config self0 self1) as Hcfg'.
    { destruct Hcfg as (? & ? & ? & ?), Hcfg1 as (? & ? & ? & ?). split_and!; congruence. }
    specialize (IH self1 Hcfg').
    destruct (for_in (load_file fs) files self1) as [ds|e].
    + by constructor.
    + destruct IH as (i & f' & Hi & Hbad & Hbefore).
      exists (S i), f'. split_and!; [done | done |]. simpl. by constructor.
  - exists 0, f. split_and!; [done | | constructor].
    apply load_file_Raise in Hf as [[? _] | (content & ? & Hdoc & ?)]; [by left |].
    right. exists content. split_and!; [done | | done].
    by rewrite <-(clipped_text_config tokenize_s tokenize_w self0 self).
Qed.

(** X3: the load succeeds exactly when every listed file can be read and
    has at least one sentence after clipping.  Otherwise it raises at the
    first listed file that cannot be read or that has no sentence: every
    file listed before it makes a document, and at a file that is read and
    has no sentence the exception is that of [max] over an empty
    sequence. *)
Theorem load_succeeds_iff fs path_to_data vocab snt_clip txt_clip :
  ((∃ ds, __init__ fs path_to_data vocab snt_clip txt_clip = Ok ds)
     ↔ ∀ f, f ∈ ImdbReviewsDataset.data_files fs path_to_data →
            loads fs (new_dataset path_to_data vocab snt_clip txt_clip) f)
  ∧ (∀ e, __init__ fs path_to_data vocab snt_clip txt_clip = Raise e →
       ∃ i f,
         ImdbReviewsDataset.data_files fs path_to_data !! i = Some f
         ∧ fails fs (new_dataset path_to_data vocab snt_clip txt_clip) f e
         ∧ ∀ j f', j < i →
             ImdbReviewsDataset.data_files fs path_to_data !! j = Some f' →
             loads fs (new_dataset path_to_data vocab snt_clip txt_clip) f').
Proof.
  set (self := new_dataset path_to_data vocab snt_clip txt_clip).
  set (files := ImdbReviewsDataset.data_files fs path_to_data).
  pose proof (load_files_result fs files self self) as H.
  unfold ImdbReviewsDataset.__init__, ImdbReviewsDataset._load_data.
  fold self. change (ImdbReviewsDataset._path_to_data self) with path_to_data. fold files.
  destruct (for_in (load_file fs) files self) as [ds|e].
  - specialize (H ltac:(done)). split.
    + split; [| by exists ds]. intros _. by apply Forall_forall.
    + done.
  - destruct (H ltac:(done)) as (i & f & Hi & Hbad & Hbefore). split.
    + split; [by intros [ds ?] |]. intros Hall. exfalso.
      destruct (Hall f) as (content & Hread & Hdoc).
      { by eapply list_elem_of_lookup_2. }
      destruct Hbad as [? | (content' & ? & ? & _)]; congruence.
    + intros e' [= <-]. exists i, f. split_and!; [done | done |].
      intros j f' Hj Hf'.
      apply (Forall_lookup_1 _ _ j f' Hbefore). by rewrite lookup_take_lt.
Qed.

End CorpusLayout.

(** ** What a tokenized document holds *)

Lemma omap_sublist {A B} (f : A → option B) (l : list A) :
  ∃ l', l' `sublist_of` l ∧ Forall2 (λ x y, f x = Some y) l' (omap f l).
Proof.
  induction l as [|x l (l' & Hsub & Hall)]; simpl.
  - exists []. split; constructor.
  - destruct (f x) as [y|] eqn:Hy.
    + exists (x :: l'). split; [by constructor | by constructor].
    + exists l'. split; [by constructor | done].
Qed.

Section Tokenization.
Variable str_lower html_sub : string → string.
Variable tokenize_s tokenize_w : string → list string.

Local Abbreviation tokenize_plane_text :=
  (ImdbReviewsDataset.tokenize_plane_text str_lower html_sub tokenize_s tokenize_w).

Lemma clipped_text_lookup self text (j : nat) snt :
  ImdbReviewsDataset.clipped_text tokenize_s tokenize_w self text !! j = Some snt →
  ∃ s, tokenize_s text !! j = Some s
       ∧ snt = py_prefix (ImdbReviewsDataset.sentence_ids tokenize_w self s)
                 (ImdbReviewsDataset._snt_clip self).
Proof.
  unfold ImdbReviewsDataset.clipped_text, py_prefix at 1.
  intros [H _]%lookup_take_Some. rewrite list_lookup_fmap in H.
  destruct (tokenize_s text !! j) as [s|]; [| done]. injection H as <-. by exists s.
Qed.

(** X4: sentence [j] of a tokenized document comes from sentence [j] of the
    lower-cased text without its tags: its ids are the ids of words of
    that sentence, in the order of the words, and they are the first of
    the ids of the sentence's vocabulary words.  The returned maximum is
    the length of one of the document's sentences and no sentence is
    longer. *)
Theorem tokenize_keeps_order self text_plane text m n (j : nat) snt :
  tokenize_plane_text self text_plane = Ok (text, m, n) →
  text !! j = Some snt →
  (∃ s ws,
     tokenize_s (html_sub (str_lower text_plane)) !! j = Some s
     ∧ snt `prefix_of` omap (λ w, ImdbReviewsDataset._vocab self !! w) (tokenize_w s)
     ∧ ws `sublist_of` tokenize_w s
     ∧ Forall2 (λ w id, ImdbReviewsDataset._vocab self !! w = Some id) ws snt)
  ∧ (Z.of_nat (length snt) ≤ m)%Z
  ∧ (∃ longest, longest ∈ text ∧ m = Z.of_nat (length longest)).
Proof.
  intros (-> & Hm & _)%tokenize_plane_text_Ok Hsnt. split_and!.
  - apply clipped_text_lookup in Hsnt as (s & Hs & ->).
    unfold ImdbReviewsDataset.sentence_ids, py_prefix.
    set (ids := omap _ (tokenize_w s)). set (k := adjust_index _ _).
    destruct (omap_sublist (λ w, ImdbReviewsDataset._vocab self !! w) (tokenize_w s))
      as (ws & Hsub & Hall).
    exists s, (take k ws). split_and!; [done | apply prefix_take | |].
    + etrans; [apply sublist_take | done].
    + by apply Forall2_take.
  - apply py_max_ge in Hm. rewrite Forall_fmap in Hm.
    by apply (Forall_lookup_1 _ _ _ _ Hm Hsnt).
  - apply py_max_elem, list_elem_of_fmap in Hm as (longest & -> & ?). by exists longest.
Qed.

End Tokenization.

Lemma get_imdb_vocab_Ok (splitlines : string → list string) fs imdb_root vocab :
  ImdbReviewsDataset.get_imdb_vocab splitlines fs imdb_root = Ok vocab →
  ∃ content,
    fs_files fs !! (imdb_root </> "imdb.vocab") = Some content
    ∧ vocab = dict (zip (splitlines content)
                        (py_range 1 (Z.of_nat (length (splitlines content)) + 1))).
Proof.
  unfold ImdbReviewsDataset.get_imdb_vocab, open_read.
  destruct (fs_files fs !! _) as [content|]; [| done].
  cbn. intros [= <-]. by exists content.
Qed.

Lemma get_imdb_vocab_range (splitlines : string → list string) fs imdb_root vocab w id :
  ImdbReviewsDataset.get_imdb_vocab splitlines fs imdb_root = Ok vocab →
  vocab !! w = Some id →
  ∃ content,
    fs_files fs !! (imdb_root </> "imdb.vocab") = Some content
    ∧ (1 ≤ id ≤ Z.of_nat (length (splitlines content)))%Z.
Proof.
  intros (content & Hread & ->)%get_imdb_vocab_Ok Hw. exists content. split; [done |].
  apply dict_lookup_Some in Hw as (p & [Hp ->]%zip_ids_lookup & _).
  apply lookup_lt_Some in Hp. lia.
Qed.

(** X5: a document tokenized with the vocabulary that [get_imdb_vocab]
    loads holds only ids from 1 to the number of lines of the vocabulary
    file; the id 0, with which [collate_docs] pads, is in no document. *)
Theorem tokenize_ids_in_vocabulary_range
    (splitlines : string → list string) (str_lower html_sub : string → string)
    (tokenize_s tokenize_w : string → list string)
    fs imdb_root self text_plane text m n :
  ImdbReviewsDataset.get_imdb_vocab splitlines fs imdb_root
    = Ok (ImdbReviewsDataset._vocab self) →
  ImdbReviewsDataset.tokenize_plane_text str_lower html_sub tokenize_s tokenize_w
    self text_plane = Ok (text, m, n) →
  ∃ content,
    fs_files fs !! (imdb_root </> "imdb.vocab") = Some content
    ∧ Forall (Forall (λ id, (1 ≤ id ≤ Z.of_nat (length (splitlines content)))%Z)) text
    ∧ Forall (λ snt, (0 : Z) ∉ snt) text.
Proof.
  intros Hvocab (-> & _ & _)%tokenize_plane_text_Ok.
  destruct (get_imdb_vocab_Ok _ _ _ _ Hvocab) as (content & Hread & _).
  exists content. split; [done |].
  assert (Forall (Forall (λ id, (1 ≤ id ≤ Z.of_nat (length (splitlines content)))%Z))
            (ImdbReviewsDataset.clipped_text tokenize_s tokenize_w self
               (html_sub (str_lower text_plane)))) as Hrange.
  { apply Forall_forall. intros snt Hsnt. apply Forall_forall. intros id Hid.
    apply list_elem_of_lookup in Hsnt as [j Hj].
    apply clipped_text_lookup in Hj as (s & _ & ->).
    apply py_prefix_subseteq, list_elem_of_omap in Hid as (w & _ & Hw).
    destruct (get_imdb_vocab_range _ _ _ _ _ _ Hvocab Hw) as (content' & Hread' & ?).
    rewrite Hread in Hread'. by injection Hread' as <-. }
  split; [done |].
  eapply Forall_impl; [exact Hrange |]. simpl. intros snt Hsnt Hzero.
  apply (proj1 (Forall_forall _ _) Hsnt) in Hzero. lia.
Qed.

(** ** The passes of the sampler *)

Section SamplerPasses.
Import SimilarRandSampler.

(** The size of the window leaves room for a whole batch. *)
Lemma window_batch_size (len i : nat) (bs k : Z) :
  (1 ≤ bs)%Z → (1 ≤ k)%Z → i < len →
  (bs `min` ((Z.of_nat len `min` (Z.of_nat i + k * bs))
             - (0 `max` (Z.of_nat i - k * bs))))%Z
  = (bs `min` Z.of_nat len)%Z.
Proof. intros Hbs Hk Hi. assert (bs ≤ k * bs)%Z by nia. lia. Qed.

Lemma iter_step_shrinks (self : t) (pool : list nat) (g : Rng) :
  (1 ≤ _bs self)%Z → (1 ≤ _k self)%Z → pool ≠ [] → NoDup pool →
  ∃ st, iter_step self pool g = Ok st
    ∧ Z.of_nat (length (batch st)) = (_bs self `min` Z.of_nat (length pool))%Z
    ∧ batch st ⊆+ pool
    ∧ cur_ids st = filter (λ e, e ∉ batch st) pool
    ∧ cur_ids st ++ batch st ≡ₚ pool
    ∧ length (cur_ids st) + length (batch st) = length pool.
Proof.
  intros Hbs Hk Hne Hnd.
  destruct (iter_step_Ok self pool g Hbs Hk Hne)
    as (st & Hst & Hidx & Hlb & Hrb & Hsub & Hlen & Hcur).
  assert (batch st ⊆+ pool) as Hsub' by (etrans; [done | apply py_slice_submseteq]).
  pose proof (filter_batch_Permutation pool (batch st) Hnd Hsub') as Hperm.
  rewrite <-Hcur in Hperm.
  exists st. split_and!; try done.
  - by rewrite Hlen, Hlb, Hrb, window_batch_size.
  - apply Permutation_length in Hperm. by rewrite length_app in Hperm.
Qed.

(** X6: from a pool of distinct indices that is not empty, a pass draws
    exactly [min(bs, len(pool))] indices: a whole batch as long as the pool
    has one, and at last all that is left.  The pool loses the drawn
    indices and no other, and keeps the order of those that stay. *)
Theorem iter_step_draws_full_batch (keys : list Z) (bs diversity : Z) (self : t)
    (pool : list nat) (g : Rng) :
  __init__ keys bs diversity = Ok self →
  pool ≠ [] → NoDup pool →
  ∃ st, iter_step self pool g = Ok st
    ∧ Z.of_nat (length (batch st)) = (bs `min` Z.of_nat (length pool))%Z
    ∧ cur_ids st `sublist_of` pool
    ∧ (∀ e, e ∈ cur_ids st ↔ e ∈ pool ∧ e ∉ batch st)
    ∧ (∀ e, e ∈ batch st → e ∈ pool)
    ∧ length (cur_ids st) + length (batch st) = length pool.
Proof.
  intros Hinit Hne Hnd.
  destruct (sampler_init_args keys bs diversity self Hinit) as (Hbs & Hk & Ebs & Ek & _).
  destruct (iter_step_shrinks self pool g) as (st & Hst & Hlen & Hsub & Hcur & _ & Hsum);
    [lia | lia | done | done |].
  exists st. rewrite Ebs in Hlen. split_and!; try done.
  - rewrite Hcur. apply sublist_filter.
  - intros e. rewrite Hcur, list_elem_of_filter. tauto.
  - intros e He. by eapply elem_of_submseteq.
Qed.

Lemma rng_after_cons (g : Rng) (st : Step) (sts : list Step) :
  rng_after g (st :: sts) = rng_after (rng st) sts.
Proof.
  unfold rng_after. destruct sts as [|st' sts]; [done |].
  rewrite last_cons_cons. destruct (last (st' :: sts)) eqn:Hlast; [done |].
  by apply last_None in Hlast.
Qed.

(** [iter_loop] returns the batches of [iter_passes], one after the
    other. *)
Lemma iter_loop_passes (fuel : nat) (self : t) (pool acc : list nat) (g : Rng) :
  iter_loop fuel self pool acc g
  = match iter_passes fuel self pool g with
    | Some (Ok sts) => Some (Ok (acc ++ concat (batch <$> sts), rng_after g sts))
    | Some (Raise e) => Some (Raise e)
    | None => None
    end.
Proof.
  revert pool acc g. induction fuel as [|fuel IH]; intros pool acc g.
  - destruct pool; simpl; [by rewrite app_nil_r | done].
  - destruct pool as [|e pool]; simpl; [by rewrite app_nil_r |].
    destruct (iter_step self (e :: pool) g) as [st|err]; [| done].
    rewrite IH. destruct (iter_passes fuel self (cur_ids st) (rng st)) as [[sts|err]|];
      [| done | done].
    rewrite rng_after_cons. simpl. by rewrite (assoc (++)).
Qed.

Lemma chunks_fuel_enough {A} (n fuel fuel' : nat) (l : list A) :
  1 ≤ n → length l ≤ fuel → length l ≤ fuel' →
  chunks_fuel fuel n l = chunks_fuel fuel' n l.
Proof.
  intros Hn. revert fuel' l. induction fuel as [|fuel IH]; intros fuel' l Hf Hf'.
  - destruct l; [| simpl in Hf; lia]. by destruct fuel'.
  - destruct l as [|x l]; [by destruct fuel' |].
    destruct fuel' as [|fuel']; [simpl in Hf'; lia |]. simpl. f_equal.
    destruct n as [|n]; [lia |]. simpl in *.
    apply IH; rewrite length_drop; lia.
Qed.

Lemma chunks_cons {A} (n : nat) (x rest : list A) :
  1 ≤ length x → length x ≤ n → (length x = n ∨ rest = []) →
  chunks n (x ++ rest) = x :: chunks n rest.
Proof.
  intros Hx Hn Hfull. unfold chunks. rewrite length_app.
  destruct (length x + length rest) as [|fuel] eqn:Hfuel; [lia |].
  destruct (x ++ rest) as [|y l] eqn:Hl.
  { apply (f_equal length) in Hl. rewrite length_app in Hl. simpl in Hl. lia. }
  change (chunks_fuel (S fuel) n (y :: l))
    with (take n (y :: l) :: chunks_fuel fuel n (drop n (y :: l))).
  rewrite <-Hl. destruct Hfull as [Hfull | ->].
  - rewrite take_app_length', drop_app_length' by done. f_equal.
    apply chunks_fuel_enough; lia.
  - rewrite app_nil_r, take_ge, drop_ge by done. by destruct fuel.
Qed.

Lemma iter_passes_nil (fuel : nat) (self : t) (g : Rng) :
  iter_passes fuel self [] g = Some (Ok []).
Proof. by destruct fuel. Qed.

Lemma iter_passes_Ok (self : t) (fuel : nat) (pool : list nat) (g : Rng) :
  (1 ≤ _bs self)%Z → (1 ≤ _k self)%Z → NoDup pool →
  length pool ≤ fuel * Z.to_nat (_bs self) →
  ∃ sts, iter_passes fuel self pool g = Some (Ok sts)
    ∧ concat (batch <$> sts) ≡ₚ pool
    ∧ chunks (Z.to_nat (_bs self)) (concat (batch <$> sts)) = batch <$> sts
    ∧ length pool ≤ length sts * Z.to_nat (_bs self)
    ∧ length sts * Z.to_nat (_bs self) < length pool + Z.to_nat (_bs self).
Proof.
  intros Hbs Hk. set (b := Z.to_nat (_bs self)). assert (1 ≤ b) as Hb by lia.
  revert pool g. induction fuel as [|fuel IH]; intros pool g Hnd Hfuel.
  - destruct pool; [| simpl in Hfuel; lia]. exists []. simpl. split_and!; done || lia.
  - destruct pool as [|e pool'] eqn:Epool.
    { exists []. simpl. split_and!; done || lia. }
    rewrite <-Epool in *. assert (pool ≠ []) as Hne by (by rewrite Epool).
    destruct (iter_step_shrinks self pool g Hbs Hk Hne Hnd)
      as (st & Hst & Hlen & Hsub & Hcur & Hperm & Hsum).
    assert (length (batch st) = b `min` length pool) as Hlen' by lia.
    assert (1 ≤ length pool) by (rewrite Epool; simpl; lia).
    destruct (IH (cur_ids st) (rng st)) as (sts & Hsts & Hp & Hchunks & Hlo & Hhi).
    { rewrite Hcur. by apply NoDup_filter. }
    { simpl in Hfuel. lia. }
    exists (st :: sts). split_and!.
    + rewrite Epool. simpl. rewrite <-Epool, Hst, Hsts. done.
    + simpl. rewrite Hp, <-Hperm. apply Permutation_app_comm.
    + rewrite fmap_cons. cbn [concat]. rewrite chunks_cons, Hchunks; [done | lia | lia |].
      destruct (decide (b ≤ length pool)); [left; lia | right].
      assert (cur_ids st = []) as Hnil by (apply nil_length_inv; lia).
      rewrite Hnil, iter_passes_nil in Hsts. by injection Hsts as <-.
    + simpl. lia.
    + simpl. destruct (decide (b ≤ length pool)); [lia |].
      assert (cur_ids st = []) as Hnil by (apply nil_length_inv; lia).
      rewrite Hnil, iter_passes_nil in Hsts. injection Hsts as <-. simpl. lia.
Qed.

Lemma iter_passes_None (self : t) (fuel : nat) (pool : list nat) (g : Rng) :
  (1 ≤ _bs self)%Z → (1 ≤ _k self)%Z → NoDup pool →
  fuel * Z.to_nat (_bs self) < length pool →
  iter_passes fuel self pool g = None.
Proof.
  intros Hbs Hk. set (b := Z.to_nat (_bs self)).
  revert pool g. induction fuel as [|fuel IH]; intros pool g Hnd Hfuel.
  - destruct pool; [simpl in Hfuel; lia | done].
  - destruct pool as [|e pool'] eqn:Epool; [simpl in Hfuel; lia |].
    rewrite <-Epool in *. assert (pool ≠ []) as Hne by (by rewrite Epool).
    destruct (iter_step_shrinks self pool g Hbs Hk Hne Hnd)
      as (st & Hst & Hlen & Hsub & Hcur & Hperm & Hsum).
    rewrite Epool. simpl. rewrite <-Epool, Hst.
    rewrite IH; [done | |].
    + rewrite Hcur. by apply NoDup_filter.
    + simpl in Hfuel. lia.
Qed.

(** X7: the loop of [__iter__] makes as many passes as the corpus has
    batches of [bs] indices, the last one counted when it is shorter: with
    fewer passes allowed the pool is not yet empty, and with that many the
    loop ends and has returned the batches of its passes one after the
    other. *)
Theorem iter_number_of_passes (keys : list Z) (bs diversity : Z) (self : t)
    (g : Rng) (fuel : nat) :
  __init__ keys bs diversity = Ok self →
  ((Z.of_nat fuel * bs < Z.of_nat (length keys))%Z → __iter__ fuel self g = None)
  ∧ ((Z.of_nat (length keys) ≤ Z.of_nat fuel * bs)%Z →
     ∃ sts,
       iter_passes fuel self (_ids self) g = Some (Ok sts)
       ∧ __iter__ fuel self g = Some (Ok (concat (batch <$> sts), rng_after g sts))
       ∧ (Z.of_nat (length keys) ≤ Z.of_nat (length sts) * bs)%Z
       ∧ (Z.of_nat (length sts) * bs < Z.of_nat (length keys) + bs)%Z).
Proof.
  intros Hinit.
  destruct (sampler_init_args keys bs diversity self Hinit) as (Hbs & Hk & Ebs & Ek & Eids).
  assert (NoDup (_ids self)) as Hnd by (rewrite Eids, argsort_Permutation; apply NoDup_seq).
  assert (length (_ids self) = length keys) as Hlen
    by (by rewrite Eids, argsort_Permutation, length_seq).
  unfold __iter__. rewrite iter_loop_passes. split.
  - intros Hfuel. rewrite iter_passes_None; [done | lia | lia | done |].
    rewrite Hlen, Ebs. nia.
  - intros Hfuel.
    destruct (iter_passes_Ok self fuel (_ids self) g) as (sts & -> & _ & _ & Hlo & Hhi);
      [lia | lia | done | rewrite Hlen, Ebs; nia |].
    exists sts. rewrite Hlen, Ebs in *. split_and!; [done | done | nia | nia].
Qed.

(** X8: the sequence that [__iter__] returns, cut into consecutive chunks
    of [bs] indices, gives back the batches that the passes drew: a loader
    that takes [bs] indices at a time gets the batches of similar length
    as the sampler made them. *)
Theorem iter_chunks_are_batches (keys : list Z) (bs diversity : Z) (self : t)
    (g g' : Rng) (fuel : nat) (out : list nat) :
  __init__ keys bs diversity = Ok self →
  __iter__ fuel self g = Some (Ok (out, g')) →
  ∃ sts,
    iter_passes fuel self (_ids self) g = Some (Ok sts)
    ∧ out = concat (batch <$> sts)
    ∧ chunks (Z.to_nat bs) out = batch <$> sts
    ∧ g' = rng_after g sts.
Proof.
  intros Hinit Hiter.
  destruct (sampler_init_args keys bs diversity self Hinit) as (Hbs & Hk & Ebs & Ek & Eids).
  assert (NoDup (_ids self)) as Hnd by (rewrite Eids, argsort_Permutation; apply NoDup_seq).
  unfold __iter__ in Hiter. rewrite iter_loop_passes in Hiter.
  destruct (decide (length (_ids self) ≤ fuel * Z.to_nat (_bs self))) as [Hfuel | Hfuel].
  - destruct (iter_passes_Ok self fuel (_ids self) g) as (sts & Hsts & _ & Hchunks & _);
      [lia | lia | done | done |].
    rewrite Hsts in Hiter. injection Hiter as <- <-.
    exists sts. rewrite Ebs in Hchunks. done.
  - rewrite iter_passes_None in Hiter; [done | lia | lia | done | lia].
Qed.

(** *** The order of the pool *)

Lemma key_le_trans (keys : list Z) : Transitive (key_le keys).
Proof. intros x y z. unfold key_le. lia. Qed.

Lemma key_le_total (keys : list Z) : Total (key_le keys).
Proof. intros x y. unfold key_le. lia. Qed.

Lemma argsort_StronglySorted (keys : list Z) :
  StronglySorted (key_le keys) (argsort keys).
Proof.
  apply (@StronglySorted_merge_sort nat (key_le keys) _
           (key_le_trans keys) (key_le_total keys)).
Qed.

Lemma StronglySorted_sublist {A} (R : relation A) (l k : list A) :
  l `sublist_of` k → StronglySorted R k → StronglySorted R l.
Proof.
  induction 1 as [|x l k Hsub IH|x l k Hsub IH]; intros Hk; [done | |].
  - apply StronglySorted_inv in Hk as [Hk Hx]. constructor; [by apply IH |].
    apply Forall_forall. intros y Hy. apply (proj1 (Forall_forall _ _) Hx).
    by eapply elem_of_sublist.
  - apply StronglySorted_inv in Hk as [Hk _]. by apply IH.
Qed.

Lemma StronglySorted_lookup_le (keys : list Z) (l : list nat) (p q x y : nat) :
  StronglySorted (key_le keys) l → p ≤ q → l !! p = Some x → l !! q = Some y →
  key_le keys x y.
Proof.
  intros Hl. revert p q. induction Hl as [|z l Hl IH Hz]; intros p q Hpq Hp Hq; [done |].
  destruct p as [|p], q as [|q]; simpl in *; try lia.
  - injection Hp as <-. injection Hq as <-. unfold key_le. lia.
  - injection Hp as <-. apply (proj1 (Forall_forall _ _) Hz).
    by eapply list_elem_of_lookup_2.
  - apply (IH p q); [lia | done | done].
Qed.

(** X9: for keys within [int64], which NumPy sorts as integers, the
    sampler's indices are in the order of their keys, and a pass leaves the
    pool in that order.  Hence the keys of the indices of a batch lie
    between the key at the first and the key at the last position of the
    window it was drawn from. *)
Theorem iter_step_similar_keys (keys : list Z) (bs diversity : Z) (self : t)
    (pool : list nat) (g : Rng) :
  Forall in_int64 keys →
  __init__ keys bs diversity = Ok self →
  StronglySorted (key_le keys) (_ids self)
  ∧ (pool ≠ [] → StronglySorted (key_le keys) pool →
     ∃ st, iter_step self pool g = Ok st
       ∧ StronglySorted (key_le keys) (cur_ids st)
       ∧ ∀ e first final,
           e ∈ batch st →
           pool !! Z.to_nat (lb st) = Some first →
           pool !! (Z.to_nat (rb st) - 1) = Some final →
           key_le keys first e ∧ key_le keys e final).
Proof.
  intros _ Hinit.
  destruct (sampler_init_args keys bs diversity self Hinit) as (Hbs & Hk & Ebs & Ek & Eids).
  split; [rewrite Eids; apply argsort_StronglySorted |].
  intros Hne Hsorted.
  destruct (iter_step_Ok self pool g) as (st & Hst & Hidx & Hlb & Hrb & Hsub & _ & Hcur);
    [lia | lia | done |].
  exists st. split_and!; [done | |].
  - rewrite Hcur. eapply StronglySorted_sublist; [apply sublist_filter | done].
  - intros e first final He Hfirst Hfinal.
    assert (1 ≤ _k self * _bs self)%Z by nia.
    apply (elem_of_submseteq _ _ _ He) in Hsub.
    apply py_slice_elem in Hsub as (q & Hq & Hpool); [| lia | lia].
    split.
    + apply (StronglySorted_lookup_le keys pool (Z.to_nat (lb st)) q); [done | lia | done | done].
    + apply (StronglySorted_lookup_le keys pool q (Z.to_nat (rb st) - 1)); [done | lia | done | done].
Qed.

End SamplerPasses.

(** ** Rows and padding *)

Lemma collate_corpus_items_Ok (batch : list TItem) :
  batch ≠ [] → Forall corpus_item batch →
  Forall (λ item, ids_int64 (txt item)) batch →
  ∃ max_txt max_snt : nat,
    Forall (λ item, fits max_txt max_snt (txt item)) batch
    ∧ collate_docs batch
      = Ok {| features :=
                {| t3_shape := (length batch, max_txt, max_snt); t3_dtype := int64;
                   t3_data := (λ item, pad_doc max_txt max_snt (txt item)) <$> batch |};
              targets :=
                {| t2_shape := (length batch, 1); t2_dtype := float32;
                   t2_data := (λ item, [label item]) <$> batch |} |}.
Proof.
  intros Hne Hwf Hint.
  destruct (py_max_Ok (txt_len <$> batch)) as [mt Hmt]; [by intros ?%fmap_nil_inv |].
  destruct (py_max_Ok (snt_len <$> batch)) as [ms Hms]; [by intros ?%fmap_nil_inv |].
  assert (0 ≤ mt)%Z as Hmt0.
  { apply py_max_elem, list_elem_of_fmap in Hmt as (item & -> & Hitem).
    by apply corpus_item_nonneg, (proj1 (Forall_forall _ _) Hwf). }
  assert (0 ≤ ms)%Z as Hms0.
  { apply py_max_elem, list_elem_of_fmap in Hms as (item & -> & Hitem).
    by apply corpus_item_nonneg, (proj1 (Forall_forall _ _) Hwf). }
  rewrite <-(Z2Nat.id mt) in Hmt by done. rewrite <-(Z2Nat.id ms) in Hms by done.
  exists (Z.to_nat mt), (Z.to_nat ms).
  assert (Forall (λ item, fits (Z.to_nat mt) (Z.to_nat ms) (txt item)) batch) as Hfits.
  { apply Forall_forall. intros item Hitem.
    apply corpus_item_fits; [by apply (proj1 (Forall_forall _ _) Hwf) | |].
    - apply py_max_ge in Hmt. rewrite Forall_fmap in Hmt.
      by apply (proj1 (Forall_forall _ _) Hmt).
    - apply py_max_ge in Hms. rewrite Forall_fmap in Hms.
      by apply (proj1 (Forall_forall _ _) Hms). }
  split; [done | by apply collate_docs_Ok].
Qed.

Lemma unpad_pad_row (b : nat) (snt : list Z) :
  (0 : Z) ∉ snt → unpad (pad_row b snt) = snt.
Proof.
  unfold pad_row. generalize (b - length snt). intros n.
  induction snt as [|v snt IH]; intros Hzero; simpl.
  - by destruct n.
  - apply not_elem_of_cons in Hzero as [? ?].
    rewrite decide_False by done. by rewrite IH.
Qed.

(** X10: when the ids of the batch are within [int64] and none of them is
    0, as with the ids of a loaded vocabulary, the padding can be told from
    the text: row [j] of item [i]
    in the feature tensor, read up to its first 0, is sentence [j] of the
    item, and the rows past the item's last sentence hold no id. *)
Theorem collate_rows_unpad (batch : list TItem) :
  batch ≠ [] → Forall corpus_item batch →
  Forall (λ item, ids_int64 (txt item)) batch →
  Forall (λ item, Forall (λ snt, (0 : Z) ∉ snt) (txt item)) batch →
  ∃ out,
    collate_docs batch = Ok out
    ∧ (∀ i item j snt,
         batch !! i = Some item → txt item !! j = Some snt →
         ∃ row, t3_row (features out) i j = Some row ∧ unpad row = snt)
    ∧ (∀ i item j row,
         batch !! i = Some item → length (txt item) ≤ j →
         t3_row (features out) i j = Some row → unpad row = []).
Proof.
  intros Hne Hwf Hint Hzero.
  destruct (collate_corpus_items_Ok batch Hne Hwf Hint)
    as (max_txt & max_snt & Hfits & Hout).
  eexists. split; [exact Hout |]. unfold t3_row. cbn [features t3_data]. split.
  - intros i item j snt Hitem Hsnt. exists (pad_row max_snt snt). unfold TText in *.
    rewrite list_lookup_fmap, Hitem. cbn. unfold pad_doc.
    rewrite lookup_app_l by (rewrite length_fmap; by eapply lookup_lt_Some).
    rewrite list_lookup_fmap, Hsnt. split; [done |].
    apply unpad_pad_row.
    apply (Forall_lookup_1 _ _ _ _ (Forall_lookup_1 _ _ _ _ Hzero Hitem) Hsnt).
  - intros i item j row Hitem Hj. rewrite list_lookup_fmap, Hitem. cbn. unfold pad_doc.
    rewrite lookup_app_r by (by rewrite length_fmap).
    intros [-> _]%lookup_replicate. by destruct max_snt.
Qed.

(** ** Data sets and loaders *)

Lemma map_result_Ok {A B} (f : A → result B) (Q : A → B → Prop) (l : list A) :
  (∀ x, x ∈ l → ∃ y, f x = Ok y ∧ Q x y) →
  ∃ ys, map_result f l = Ok ys ∧ Forall2 (λ x y, f x = Ok y ∧ Q x y) l ys.
Proof.
  induction l as [|x l IH]; intros Hall; simpl.
  - exists []. split; [done | constructor].
  - destruct (Hall x) as (y & Hy & HQ); [left |].
    destruct IH as (ys & Hys & Hrel); [intros x' ?; apply Hall; by right |].
    exists (y :: ys). rewrite Hy. cbn. rewrite Hys. cbn. split; [done | by constructor].
Qed.

Lemma elem_of_concat {A} (x : A) (ls : list (list A)) :
  x ∈ concat ls ↔ ∃ l, l ∈ ls ∧ x ∈ l.
Proof.
  induction ls as [|l ls IH]; simpl.
  - split; [by intros ?%elem_of_nil | by intros (? & ?%elem_of_nil & _)].
  - rewrite elem_of_app, IH. split.
    + intros [? | (l' & ? & ?)]; [exists l; split; [left | done] |].
      exists l'. split; [by right | done].
    + intros (l' & [-> | ?]%elem_of_cons & ?); [by left |]. right. by exists l'.
Qed.

Lemma chunks_fuel_spec {A} (n fuel : nat) (l : list A) :
  1 ≤ n → length l ≤ fuel →
  concat (chunks_fuel fuel n l) = l
  ∧ Forall (λ c, c ≠ [] ∧ length c ≤ n) (chunks_fuel fuel n l)
  ∧ length l ≤ length (chunks_fuel fuel n l) * n
  ∧ length (chunks_fuel fuel n l) * n < length l + n.
Proof.
  intros Hn. revert l. induction fuel as [|fuel IH]; intros l Hfuel.
  - destruct l; [| simpl in Hfuel; lia]. simpl. split_and!; done || lia.
  - destruct l as [|x l]; [simpl; split_and!; done || lia |].
    change (chunks_fuel (S fuel) n (x :: l))
      with (take n (x :: l) :: chunks_fuel fuel n (drop n (x :: l))).
    destruct (IH (drop n (x :: l))) as (Hcat & Hall & Hlo & Hhi).
    { rewrite length_drop. simpl in *. lia. }
    rewrite length_drop in Hlo, Hhi. split_and!.
    + simpl concat. by rewrite Hcat, take_drop.
    + constructor; [| done]. rewrite length_take. split; [| lia].
      destruct n; [lia | done].
    + cbn [length] in *. rewrite Nat.mul_succ_l. lia.
    + cbn [length] in *. rewrite Nat.mul_succ_l.
      destruct (length (chunks_fuel fuel n (drop n (x :: l)))) as [|c];
        [lia | rewrite Nat.mul_succ_l in *; lia].
Qed.

Section LoaderProperties.
Import Loaders.
Variable splitlines : string → list string.
Variable str_lower html_sub : string → string.
Variable tokenize_s tokenize_w : string → list string.

Local Abbreviation get_imdb_vocab := (ImdbReviewsDataset.get_imdb_vocab splitlines).
Local Abbreviation __init__ :=
  (ImdbReviewsDataset.__init__ str_lower html_sub tokenize_s tokenize_w).
Local Abbreviation get_datasets :=
  (Loaders.get_datasets splitlines str_lower html_sub tokenize_s tokenize_w).
Local Abbreviation get_test_dataset :=
  (Loaders.get_test_dataset splitlines str_lower html_sub tokenize_s tokenize_w).

Lemma init_config fs path_to_data v snt_clip txt_clip ds :
  __init__ fs path_to_data v snt_clip txt_clip = Ok ds →
  ImdbReviewsDataset._vocab ds = v
  ∧ ImdbReviewsDataset._snt_clip ds = snt_clip
  ∧ ImdbReviewsDataset._txt_clip ds = txt_clip.
Proof.
  unfold ImdbReviewsDataset.__init__, ImdbReviewsDataset._load_data. intros H.
  by apply load_files_layout in H as (? & ? & ? & _).
Qed.


Lemma fetch_Ok ds items chunk :
  items_of ds items → Forall corpus_item items →
  Forall (λ item, ids_int64 (txt item)) items →
  chunk ≠ [] → Forall (λ idx, idx < length items) chunk →
  ∃ out batch_items,
    fetch ds chunk = Ok out
    ∧ Forall2 (λ idx item, items !! idx = Some item) chunk batch_items
    ∧ collate_docs batch_items = Ok out
    ∧ (t3_shape (features out)).1.1 = length chunk
    ∧ t2_shape (targets out) = (length chunk, 1).
Proof.
  intros Hitems Hwf Hint Hne Hidx. unfold fetch.
  destruct (map_result_Ok
              (λ idx, ImdbReviewsDataset.__getitem__ ds (Z.of_nat idx))
              (λ idx item, items !! idx = Some item) chunk)
    as (batch_items & -> & Hrel).
  { intros idx Hin. rewrite (getitem_items ds items) by done.
    destruct (py_index_inside items (Z.of_nat idx)) as (item & Hlook & ->).
    - apply (proj1 (Forall_forall _ _) Hidx) in Hin. lia.
    - exists item. by rewrite Nat2Z.id in Hlook. }
  cbn.
  assert (Forall2 (λ idx item, items !! idx = Some item) chunk batch_items) as Hrel'.
  { eapply Forall2_impl; [exact Hrel |]. by intros ?? [_ ?]. }
  assert (length batch_items = length chunk) as Hlen by (symmetry; by eapply Forall2_length).
  destruct (collate_corpus_items_Ok batch_items) as (max_txt & max_snt & _ & Hout).
  { intros ->. by destruct chunk. }
  { apply Forall_forall. intros item Hin.
    apply list_elem_of_lookup in Hin as [p Hp].
    destruct (Forall2_lookup_r _ _ _ _ _ Hrel' Hp) as (idx & _ & Hlook).
    by apply (Forall_lookup_1 _ _ _ _ Hwf Hlook). }
  { apply Forall_forall. intros item Hin.
    apply list_elem_of_lookup in Hin as [p Hp].
    destruct (Forall2_lookup_r _ _ _ _ _ Hrel' Hp) as (idx & _ & Hlook).
    by apply (Forall_lookup_1 _ _ _ _ Hint Hlook). }
  eexists _, batch_items. rewrite Hout. rewrite Hlen. done.
Qed.

Lemma init_texts_int64 fs path_to_data v snt_clip txt_clip ds :
  __init__ fs path_to_data v snt_clip txt_clip = Ok ds →
  map_Forall (λ _ id, in_int64 id) v →
  Forall ids_int64 (ImdbReviewsDataset._texts ds).
Proof.
  unfold ImdbReviewsDataset.__init__, ImdbReviewsDataset._load_data. intros H Hv.
  apply load_files_layout in H as (_ & _ & _ & _ & _ & items & _ & Hdocs & -> & _).
  simpl. apply Forall_fmap, Forall_forall. intros item Hitem.
  apply list_elem_of_lookup in Hitem as [p Hp].
  destruct (Forall2_lookup_r _ _ _ _ _ Hdocs Hp) as (f & _ & content & _ & Htxt).
  apply Forall_forall. intros snt Hsnt. apply Forall_forall. intros id Hid.
  simpl in Hsnt. rewrite Htxt in Hsnt. apply list_elem_of_lookup in Hsnt as [j Hj].
  apply clipped_text_lookup in Hj as (sentence & _ & ->).
  apply py_prefix_subseteq, list_elem_of_omap in Hid as (w & _ & Hw).
  by apply (Hv w id).
Qed.

(** X13: one pass over a loader that [get_loaders] makes of a corpus
    loaded with a vocabulary whose ids are within [int64] raises nothing:
    the sampler returns every index of the corpus once, and each chunk of
    at most [batch_size] of them, none of them empty, is fetched and
    collated into a batch of as many documents; the pass yields as many
    batches as the corpus has chunks of that size. *)
Theorem epoch_collates_every_batch fs path_to_data v snt_clip txt_clip ds
    bs n_workers loader (g : Rng) (fuel : nat) :
  __init__ fs path_to_data v snt_clip txt_clip = Ok ds →
  map_Forall (λ _ id, in_int64 id) v →
  make_loader ds bs n_workers = inr loader →
  ImdbReviewsDataset.__len__ ds ≤ fuel →
  ∃ order g' batches,
    SimilarRandSampler.__iter__ fuel (sampler loader) g = Some (Ok (order, g'))
    ∧ order ≡ₚ seq 0 (ImdbReviewsDataset.__len__ ds)
    ∧ epoch fuel loader g = Some (Ok (batches, g'))
    ∧ Forall2 (λ chunk out,
                 fetch ds chunk = Ok out
                 ∧ (t3_shape (features out)).1.1 = length chunk
                 ∧ t2_shape (targets out) = (length chunk, 1)
                 ∧ 1 ≤ length chunk
                 ∧ (Z.of_nat (length chunk) ≤ bs)%Z)
              (chunks (Z.to_nat bs) order) batches
    ∧ (Z.of_nat (ImdbReviewsDataset.__len__ ds) ≤ Z.of_nat (length batches) * bs)%Z
    ∧ (Z.of_nat (length batches) * bs < Z.of_nat (ImdbReviewsDataset.__len__ ds) + bs)%Z.
Proof.
  intros Hload Hv Hloader Hfuel.
  destruct (init_Ok _ _ _ _ _ _ _ _ _ _ Hload) as (items & Hwf & Hitems & _).
  assert (Forall (λ item, ids_int64 (txt item)) items) as Hint.
  { pose proof (init_texts_int64 _ _ _ _ _ _ Hload Hv) as Htexts.
    destruct Hitems as (Etexts & _). rewrite Etexts in Htexts.
    exact (proj1 (Forall_fmap txt ids_int64 items) Htexts). }
  assert (ImdbReviewsDataset.__len__ ds = length items) as Hlen.
  { unfold ImdbReviewsDataset.__len__. destruct Hitems as (-> & _). by rewrite length_fmap. }
  assert (length (txt_lens ds) = length items) as Hlens.
  { unfold txt_lens. destruct Hitems as (_ & _ & -> & _). by rewrite length_fmap. }
  unfold make_loader in Hloader.
  destruct (SimilarRandSampler.__init__ (txt_lens ds) bs 10) as [s|] eqn:Hs; [| done].
  destruct (n_workers <? 0)%Z; [done |]. injection Hloader as <-. cbn [sampler dataset batch_size].
  destruct (sampler_init_args _ _ _ _ Hs) as (Hbs & Hk & Ebs & Ek & Eids).
  destruct (iter_loop_Ok s fuel (SimilarRandSampler._ids s) [] g)
    as (order & g' & Horder & Hperm).
  { lia. } { lia. }
  { rewrite Eids, argsort_Permutation. apply NoDup_seq. }
  { rewrite Eids, argsort_Permutation, length_seq. lia. }
  simpl in Hperm. rewrite Eids, argsort_Permutation, Hlens, <-Hlen in Hperm.
  unfold epoch. cbn [sampler dataset batch_size].
  unfold SimilarRandSampler.__iter__. rewrite Horder.
  destruct (chunks_fuel_spec (Z.to_nat bs) (length order) order)
    as (Hcat & Hchunks & Hlo & Hhi); [lia | done |].
  fold (chunks (Z.to_nat bs) order) in Hcat, Hchunks, Hlo, Hhi.
  destruct (map_result_Ok (fetch ds)
              (λ chunk out,
                 (t3_shape (features out)).1.1 = length chunk
                 ∧ t2_shape (targets out) = (length chunk, 1)
                 ∧ 1 ≤ length chunk
                 ∧ (Z.of_nat (length chunk) ≤ bs)%Z)
              (chunks (Z.to_nat bs) order)) as (batches & Hbatches & Hrel).
  { intros chunk Hin.
    destruct (proj1 (Forall_forall _ _) Hchunks chunk Hin) as [Hne Hsize].
    destruct (fetch_Ok ds items chunk) as (out & _ & Hout & _ & _ & Hshape & Hshape');
      [done | done | done | done | |].
    - apply Forall_forall. intros idx Hidx.
      assert (idx ∈ order) as Hord.
      { rewrite <-Hcat. apply elem_of_concat. by exists chunk. }
      rewrite Hperm in Hord. apply elem_of_seq in Hord. lia.
    - exists out. split_and!; [done | done | done | | lia].
      destruct chunk; [done | simpl; lia]. }
  exists order, g', batches. rewrite Hbatches. cbn.
  split_and!; [done | done | done | done | |].
  - apply Forall2_length in Hrel. apply Permutation_length in Hperm.
    rewrite length_seq in Hperm. rewrite <-Hrel, <-Hperm. nia.
  - apply Forall2_length in Hrel. apply Permutation_length in Hperm.
    rewrite length_seq in Hperm. rewrite <-Hrel, <-Hperm. nia.
Qed.

End LoaderProperties.

(** ** The files of a directory *)

Lemma append_cons (a : ascii) (s t : string) : String a s +:+ t = String a (s +:+ t).
Proof. reflexivity. Qed.

Lemma append_nil_l (t : string) : EmptyString +:+ t = t.
Proof. reflexivity. Qed.

Lemma append_assoc (s t u : string) : (s +:+ t) +:+ u = s +:+ (t +:+ u).
Proof.
  induction s as [|a s IH]; [done |]. by rewrite !append_cons, IH.
Qed.

Lemma length_append (s t : string) :
  String.length (s +:+ t) = String.length s + String.length t.
Proof.
  induction s as [|a s IH]; [done |]. rewrite append_cons. simpl. by rewrite IH.
Qed.

Lemma str_take_drop (k : nat) (s : string) : str_take k s +:+ str_drop k s = s.
Proof.
  revert s. induction k as [|k IH]; intros s; [done |].
  destruct s as [|a s]; [done |]. simpl. by rewrite append_cons, IH.
Qed.

Lemma str_take_append (s t : string) : str_take (String.length s) (s +:+ t) = s.
Proof.
  induction s as [|a s IH]; [done |]. rewrite append_cons. simpl. by rewrite IH.
Qed.

Lemma str_drop_append (s t : string) : str_drop (String.length s) (s +:+ t) = t.
Proof.
  induction s as [|a s IH]; [done |]. rewrite append_cons. simpl. by rewrite IH.
Qed.

Lemma contains_char_split (c : ascii) (s : string) :
  contains_char c s = true ↔ ∃ x y, s = x +:+ String c y.
Proof.
  induction s as [|a s IH]; simpl.
  - split; [done | intros ([|? ?] & y & ?); done].
  - destruct (Ascii.eqb a c) eqn:Hac.
    + apply Ascii.eqb_eq in Hac as ->. split; [| done]. intros _. by exists EmptyString, s.
    + apply Ascii.eqb_neq in Hac. rewrite IH. split.
      * intros (x & y & ->). by exists (String a x), y.
      * intros ([|b x] & y & Hs).
        { rewrite append_nil_l in Hs. congruence. }
        rewrite append_cons in Hs. injection Hs as -> ->. by exists x, y.
Qed.

(** X14: the load reads the entries of a directory whose name has the
    form [x_y.txt], with any [x] and [y], also empty ones, and no other
    entry; it reads them in the order in which the directory lists them. *)
Theorem glob_txt_pattern (fs : FS) (dir : path) :
  (∀ name, matches_pattern name = true ↔ ∃ x y, name = x +:+ "_" +:+ y +:+ ".txt")
  ∧ (∀ p, p ∈ glob_txt fs dir ↔
          ∃ names name x y,
            fs_dirs fs !! dir = Some names ∧ name ∈ names
            ∧ name = x +:+ "_" +:+ y +:+ ".txt" ∧ p = dir </> name)
  ∧ (∀ names, fs_dirs fs !! dir = Some names →
              glob_txt fs dir `sublist_of` ((λ name, dir </> name) <$> names)).
Proof.
  assert (∀ name, matches_pattern name = true
                  ↔ ∃ x y, name = x +:+ "_" +:+ y +:+ ".txt") as Hpattern.
  { intros name. unfold matches_pattern. rewrite !andb_true_iff. split.
    - intros [[Hlen Hsuffix] Hunder].
      apply String.eqb_eq in Hsuffix. apply contains_char_split in Hunder as (x & y & Hxy).
      exists x, y. rewrite <-(str_take_drop (String.length name - 4) name) at 1.
      by rewrite Hsuffix, Hxy, append_assoc.
    - intros (x & y & ->).
      assert (String.length (x +:+ "_" +:+ y +:+ ".txt")
              = String.length (x +:+ "_" +:+ y) + 4) as Hlen.
      { rewrite !length_append. simpl. lia. }
      rewrite Hlen. replace (String.length (x +:+ "_" +:+ y) + 4 - 4)
        with (String.length (x +:+ "_" +:+ y)) by lia.
      replace (x +:+ "_" +:+ y +:+ ".txt") with ((x +:+ "_" +:+ y) +:+ ".txt")
        by (by rewrite !append_assoc).
      rewrite str_drop_append, str_take_append. split_and!.
      + apply Nat.leb_le. lia.
      + by apply String.eqb_eq.
      + apply contains_char_split. by exists x, y. }
  split; [done |]. split.
  - intros p. unfold glob_txt. destruct (fs_dirs fs !! dir) as [names|].
    + rewrite list_elem_of_fmap. split.
      * intros (name & -> & [Hm Hin]%list_elem_of_filter).
        apply Hpattern in Hm as (x & y & ->).
        by exists names, (x +:+ "_" +:+ y +:+ ".txt"), x, y.
      * intros (names' & name & x & y & [= <-] & Hin & Hname & ->).
        exists name. split; [done |]. apply list_elem_of_filter. split; [| done].
        apply Hpattern. by exists x, y.
    + split; [by intros ?%elem_of_nil | by intros (? & ? & ? & ? & ? & _)].
  - intros names Hnames. unfold glob_txt. rewrite Hnames.
    apply fmap_sublist, sublist_filter.
Qed.

(** * The further properties at the example inputs *)

Lemma load_paths_and_labels_witness :
  Plain.__init__ Reviews.fs ["imdb"; "train"] Examples.vocab SNT_CLIP TXT_CLIP
    = Ok Reviews.train_set
  ∧ ImdbReviewsDataset._labels Reviews.train_set
    = replicate (length (glob_txt Reviews.fs (["imdb"; "train"] </> "neg"))) 0%Z
      ++ replicate (length (glob_txt Reviews.fs (["imdb"; "train"] </> "pos"))) 1%Z.
Proof.
  split; [reflexivity |].
  apply (load_paths_and_labels Plain.str_lower Plain.html_sub Plain.tokenize_s
           Plain.tokenize_w Reviews.fs ["imdb"; "train"] Examples.vocab SNT_CLIP TXT_CLIP
           Reviews.train_set).
  reflexivity.
Defined.

Lemma load_documents_witness :
  Plain.__init__ Reviews.fs ["imdb"; "train"] Examples.vocab SNT_CLIP TXT_CLIP
    = Ok Reviews.train_set
  ∧ ImdbReviewsDataset._paths Reviews.train_set !! 1
    = Some ["imdb"; "train"; "pos"; "7_9.txt"]
  ∧ ∃ content text m,
      fs_files Reviews.fs !! ["imdb"; "train"; "pos"; "7_9.txt"] = Some content
      ∧ text = ImdbReviewsDataset.clipped_text Plain.tokenize_s Plain.tokenize_w
                 (ImdbReviewsDataset.new_dataset ["imdb"; "train"] Examples.vocab
                    SNT_CLIP TXT_CLIP)
                 (Plain.html_sub (Plain.str_lower content))
      ∧ ImdbReviewsDataset._texts Reviews.train_set !! 1 = Some text
      ∧ txt_lens Reviews.train_set !! 1 = Some (Z.of_nat (length text))
      ∧ 1 ≤ length text
      ∧ ImdbReviewsDataset._snt_lens Reviews.train_set !! 1 = Some m
      ∧ py_max ((λ snt, Z.of_nat (length snt)) <$> text) = Ok m
      ∧ ImdbReviewsDataset._labels Reviews.train_set !! 1
        = Some (file_label ["imdb"; "train"; "pos"; "7_9.txt"]).
Proof.
  split; [reflexivity |]. split; [reflexivity |].
  apply (load_documents Plain.str_lower Plain.html_sub Plain.tokenize_s
           Plain.tokenize_w Reviews.fs ["imdb"; "train"] Examples.vocab SNT_CLIP TXT_CLIP
           Reviews.train_set 1 ["imdb"; "train"; "pos"; "7_9.txt"]); reflexivity.
Defined.

Lemma load_succeeds_iff_witness :
  Plain.__init__ Examples.fs ["data"] Examples.vocab SNT_CLIP 0 = Raise ValueError_max_empty
  ∧ ∃ i f,
      ImdbReviewsDataset.data_files Examples.fs ["data"] !! i = Some f
      ∧ (fs_files Examples.fs !! f = None
         ∨ (∃ content,
              fs_files Examples.fs !! f = Some content
              ∧ ImdbReviewsDataset.clipped_text Plain.tokenize_s Plain.tokenize_w
                  (ImdbReviewsDataset.new_dataset ["data"] Examples.vocab SNT_CLIP 0)
                  (Plain.html_sub (Plain.str_lower content)) = []
              ∧ ValueError_max_empty = ValueError_max_empty)).
Proof.
  split; [reflexivity |].
  destruct (load_succeeds_iff Plain.str_lower Plain.html_sub Plain.tokenize_s
              Plain.tokenize_w Examples.fs ["data"] Examples.vocab SNT_CLIP 0)
    as [_ Hraise].
  destruct (Hraise ValueError_max_empty) as (i & f & Hi & Hfails & _); [reflexivity |].
  exists i, f. split; [exact Hi | exact Hfails].
Defined.

Lemma tokenize_keeps_order_witness :
  Plain.tokenize_plane_text
    (ImdbReviewsDataset.new_dataset ["data"] Examples.vocab 2 TXT_CLIP) "good bad good"
    = Ok ([[1; 2]]%Z, 2%Z, 1%Z)
  ∧ ∃ s ws,
      Plain.tokenize_s (Plain.html_sub (Plain.str_lower "good bad good")) !! 0 = Some s
      ∧ [1; 2]%Z `prefix_of` omap (λ w, Examples.vocab !! w) (Plain.tokenize_w s)
      ∧ ws `sublist_of` Plain.tokenize_w s
      ∧ Forall2 (λ w id, Examples.vocab !! w = Some id) ws [1; 2]%Z.
Proof.
  split; [reflexivity |].
  apply (tokenize_keeps_order Plain.str_lower Plain.html_sub Plain.tokenize_s
           Plain.tokenize_w
           (ImdbReviewsDataset.new_dataset ["data"] Examples.vocab 2 TXT_CLIP)
           "good bad good" [[1; 2]]%Z 2%Z 1%Z 0 [1; 2]%Z); reflexivity.
Defined.

Lemma tokenize_ids_in_vocabulary_range_witness :
  Plain.get_imdb_vocab Examples.fs ["data"] = Ok Examples.vocab
  ∧ Plain.tokenize_plane_text
      (ImdbReviewsDataset.new_dataset ["data"] Examples.vocab SNT_CLIP TXT_CLIP)
      "good bad good" = Ok ([[1; 2; 1]]%Z, 3%Z, 1%Z)
  ∧ ∃ content,
      fs_files Examples.fs !! (["data"] </> "imdb.vocab") = Some content
      ∧ Forall (Forall (λ id, (1 ≤ id ≤ Z.of_nat (length (Plain.splitlines content)))%Z))
          [[1; 2; 1]]%Z
      ∧ Forall (λ snt, (0 : Z) ∉ snt) [[1; 2; 1]]%Z.
Proof.
  split; [reflexivity |]. split; [reflexivity |].
  apply (tokenize_ids_in_vocabulary_range Plain.splitlines Plain.str_lower Plain.html_sub
           Plain.tokenize_s Plain.tokenize_w Examples.fs ["data"]
           (ImdbReviewsDataset.new_dataset ["data"] Examples.vocab SNT_CLIP TXT_CLIP)
           "good bad good" [[1; 2; 1]]%Z 3%Z 1%Z); reflexivity.
Defined.

Lemma iter_step_draws_full_batch_witness :
  SimilarRandSampler.__init__ Examples.keys 2 1 = Ok Examples.sampler
  ∧ argsort Examples.keys ≠ []
  ∧ NoDup (argsort Examples.keys)
  ∧ ∃ st,
      SimilarRandSampler.iter_step Examples.sampler (argsort Examples.keys) Examples.draws
        = Ok st
      ∧ Z.of_nat (length (SimilarRandSampler.batch st))
        = (2 `min` Z.of_nat (length (argsort Examples.keys)))%Z
      ∧ length (SimilarRandSampler.cur_ids st) + length (SimilarRandSampler.batch st)
        = length (argsort Examples.keys).
Proof.
  assert (argsort Examples.keys ≠ []) as Hne by (vm_compute; discriminate).
  assert (NoDup (argsort Examples.keys)) as Hnd
    by (apply (bool_decide_unpack _); vm_compute; exact I).
  split; [reflexivity |]. split; [exact Hne |]. split; [exact Hnd |].
  destruct (iter_step_draws_full_batch Examples.keys 2 1 Examples.sampler
              (argsort Examples.keys) Examples.draws eq_refl Hne Hnd)
    as (st & Hst & Hlen & _ & _ & _ & Hsum).
  exists st. split; [exact Hst |]. split; [exact Hlen | exact Hsum].
Defined.

Lemma iter_number_of_passes_witness :
  SimilarRandSampler.__init__ Examples.keys 2 1 = Ok Examples.sampler
  ∧ (Z.of_nat 3 * 2 < Z.of_nat (length Examples.keys))%Z
  ∧ SimilarRandSampler.__iter__ 3 Examples.sampler Examples.draws = None
  ∧ (Z.of_nat (length Examples.keys) ≤ Z.of_nat 4 * 2)%Z
  ∧ ∃ sts,
      iter_passes 4 Examples.sampler (SimilarRandSampler._ids Examples.sampler)
        Examples.draws = Some (Ok sts)
      ∧ SimilarRandSampler.__iter__ 4 Examples.sampler Examples.draws
        = Some (Ok (concat (SimilarRandSampler.batch <$> sts),
                    rng_after Examples.draws sts))
      ∧ (Z.of_nat (length Examples.keys) ≤ Z.of_nat (length sts) * 2)%Z
      ∧ (Z.of_nat (length sts) * 2 < Z.of_nat (length Examples.keys) + 2)%Z.
Proof.
  split; [reflexivity |]. split; [vm_compute; reflexivity |]. split.
  - apply (iter_number_of_passes Examples.keys 2 1 Examples.sampler Examples.draws 3);
      [reflexivity | vm_compute; reflexivity].
  - split; [vm_compute; discriminate |].
    apply (iter_number_of_passes Examples.keys 2 1 Examples.sampler Examples.draws 4);
      [reflexivity | vm_compute; discriminate].
Defined.

Lemma iter_chunks_are_batches_witness :
  SimilarRandSampler.__init__ Examples.keys 2 1 = Ok Examples.sampler
  ∧ ∃ out g',
      SimilarRandSampler.__iter__ 8 Examples.sampler Examples.draws = Some (Ok (out, g'))
      ∧ ∃ sts,
          iter_passes 8 Examples.sampler (SimilarRandSampler._ids Examples.sampler)
            Examples.draws = Some (Ok sts)
          ∧ out = concat (SimilarRandSampler.batch <$> sts)
          ∧ chunks (Z.to_nat 2) out = SimilarRandSampler.batch <$> sts
          ∧ g' = rng_after Examples.draws sts.
Proof.
  split; [reflexivity |]. eexists _, _. split; [vm_compute; reflexivity |].
  apply (iter_chunks_are_batches Examples.keys 2 1 Examples.sampler Examples.draws _ 8);
    [reflexivity | vm_compute; reflexivity].
Defined.

Lemma iter_step_similar_keys_witness :
  Forall in_int64 Examples.keys
  ∧ SimilarRandSampler.__init__ Examples.keys 2 1 = Ok Examples.sampler
  ∧ StronglySorted (key_le Examples.keys) (SimilarRandSampler._ids Examples.sampler).
Proof.
  assert (Forall in_int64 Examples.keys) as Hkeys.
  { apply (bool_decide_unpack _). vm_compute. exact I. }
  split; [exact Hkeys |]. split; [reflexivity |].
  apply (iter_step_similar_keys Examples.keys 2 1 Examples.sampler
           (argsort Examples.keys) Examples.draws).
  - exact Hkeys.
  - reflexivity.
Defined.

Lemma collate_rows_unpad_witness :
  Examples.batch ≠ []
  ∧ Forall corpus_item Examples.batch
  ∧ Forall (λ item, ids_int64 (txt item)) Examples.batch
  ∧ Forall (λ item, Forall (λ snt, (0 : Z) ∉ snt) (txt item)) Examples.batch
  ∧ ∃ out,
      collate_docs Examples.batch = Ok out
      ∧ ∀ i item j snt,
          Examples.batch !! i = Some item → txt item !! j = Some snt →
          ∃ row, t3_row (features out) i j = Some row ∧ unpad row = snt.
Proof.
  assert (Examples.batch ≠ []) as Hne by (vm_compute; discriminate).
  assert (Forall corpus_item Examples.batch) as Hwf.
  { constructor; [| constructor; [| constructor]];
      (split; [discriminate | split; [reflexivity | split; [reflexivity | simpl; lia]]]). }
  assert (Forall (λ item, Forall (λ snt, (0 : Z) ∉ snt) (txt item)) Examples.batch)
    as Hzero.
  { repeat (constructor; simpl);
      intros Hin; repeat (apply elem_of_cons in Hin as [Hin | Hin]; [discriminate |]);
      by apply elem_of_nil in Hin. }
  assert (Forall (λ item, ids_int64 (txt item)) Examples.batch) as Hint.
  { apply (bool_decide_unpack _). vm_compute. exact I. }
  split; [exact Hne |]. split; [exact Hwf |]. split; [exact Hint |].
  split; [exact Hzero |].
  destruct (collate_rows_unpad Examples.batch Hne Hwf Hint Hzero)
    as (out & Hout & Hrows & _).
  exists out. split; [exact Hout | exact Hrows].
Defined.


Lemma epoch_collates_every_batch_witness :
  Plain.__init__ Reviews.fs ["imdb"; "train"] Examples.vocab SNT_CLIP TXT_CLIP
    = Ok Reviews.train_set
  ∧ map_Forall (λ _ id, in_int64 id) Examples.vocab
  ∧ Loaders.make_loader Reviews.train_set 1 4 = inr Reviews.train_loader
  ∧ ImdbReviewsDataset.__len__ Reviews.train_set ≤ 2
  ∧ ∃ order g' batches,
      SimilarRandSampler.__iter__ 2 (Loaders.sampler Reviews.train_loader) Examples.draws
        = Some (Ok (order, g'))
      ∧ order ≡ₚ seq 0 (ImdbReviewsDataset.__len__ Reviews.train_set)
      ∧ Loaders.epoch 2 Reviews.train_loader Examples.draws = Some (Ok (batches, g'))
      ∧ length batches = 2.
Proof.
  assert (map_Forall (λ _ id, in_int64 id) Examples.vocab) as Hv.
  { unfold Examples.vocab. apply map_Forall_insert_2; [unfold in_int64; lia |].
    apply map_Forall_singleton. unfold in_int64. lia. }
  split; [reflexivity |]. split; [exact Hv |]. split; [reflexivity |].
  split; [vm_compute; lia |].
  destruct (epoch_collates_every_batch Plain.str_lower Plain.html_sub Plain.tokenize_s
              Plain.tokenize_w Reviews.fs ["imdb"; "train"] Examples.vocab SNT_CLIP
              TXT_CLIP Reviews.train_set 1 4 Reviews.train_loader Examples.draws 2)
    as (order & g' & batches & Horder & Hperm & Hepoch & _ & Hlo & Hhi).
  - reflexivity.
  - exact Hv.
  - reflexivity.
  - vm_compute. lia.
  - exists order, g', batches. split; [exact Horder |]. split; [exact Hperm |].
    split; [exact Hepoch |].
    change (ImdbReviewsDataset.__len__ Reviews.train_set) with 2 in Hlo, Hhi. lia.
Defined.

Lemma glob_txt_pattern_witness :
  fs_dirs Reviews.fs !! ["imdb"; "train"; "pos"] = Some ["7_9.txt"; "readme.txt"]
  ∧ glob_txt Reviews.fs ["imdb"; "train"; "pos"]
      `sublist_of` ((λ name, ["imdb"; "train"; "pos"] </> name)
                      <$> ["7_9.txt"; "readme.txt"]).
Proof.
  split; [reflexivity |].
  apply (glob_txt_pattern Reviews.fs ["imdb"; "train"; "pos"]).
  reflexivity.
Defined.
